(** * expo-permissions on the web: the permission resolver

    A shallow embedding of [packages/expo-permissions/src/ExpoPermissions.web.ts]
    and the properties its specification states about it.

    The module is glue between browser APIs ([navigator.permissions],
    [getUserMedia], [Notification], [geolocation]) and a uniform
    [PermissionInfo].  The browser is an external collaborator, so the
    embedding takes a [Host]: a snapshot of the environment that says, for
    each API the code touches, whether it is present and how a call to it
    settles.  Every function of the source becomes a function of that
    snapshot. *)

From stdpp Require Import base option strings list gmap.
From Stdlib Require Import ZArith.

Local Open Scope string_scope.
Local Open Scope Z_scope.

(** ** Values thrown and promises *)

(** A thrown JavaScript object: the fields the source reads or sets. *)
Module Error.
Record t : Type := Build { name : string; message : string; code : option Z }.
End Error.

(** A value thrown, or a promise is rejected with: [undefined] or [null], of
    which no property can be read, or an object. *)
Inductive Thrown : Type :=
| Nullish
| Object (e : Error.t).

(** What [navigator.x] throws when [navigator] is [undefined], what
    [geo.getCurrentPosition] throws when [geo] is, and what destructuring
    [{ message }] throws when the value is [undefined] or [null].  The text of
    the message is engine specific; the source never inspects it. *)
Definition TypeError (property : string) : Error.t :=
  Error.Build "TypeError"
    (String.append "Cannot read property '" (String.append property "' of undefined"))
    None.

(** A promise, seen from the code that awaits it: fulfilled with a value,
    rejected with a thrown value, or never settled.  A synchronous [throw]
    inside an async function or a promise executor is the rejected case. *)
Inductive Promise (A : Type) : Type :=
| Resolved (a : A)
| Rejected (e : Thrown)
| Pending.
Arguments Resolved {A} a.
Arguments Rejected {A} e.
Arguments Pending {A}.

(** [x ← p; k] is [const x = await p; k]. *)
#[export] Instance Promise_bind : MBind Promise := λ A B k p,
  match p with
  | Resolved a => k a
  | Rejected e => Rejected e
  | Pending => Pending
  end.

#[export] Instance Promise_ret : MRet Promise := λ A a, Resolved a.

(** [try { body } catch (e) { handler e }] around awaited code. *)
Definition tryCatch {A} (body : Promise A) (handler : Thrown → Promise A) : Promise A :=
  match body with
  | Resolved a => Resolved a
  | Rejected e => handler e
  | Pending => Pending
  end.

Definition rejected {A} (p : Promise A) : bool :=
  match p with Rejected _ => true | _ => false end.

Definition rejectedNullish {A} (p : Promise A) : bool :=
  match p with Rejected Nullish => true | _ => false end.

(** ** The host environment *)

Record MediaStreamConstraints : Type := { audio : bool; video : bool }.

Inductive MediaStream : Type := aMediaStream.

Record MediaDeviceInfo : Type := { kind : string; label : string }.

Module PositionError.
Record t : Type := Build { code : Z }.
End PositionError.

(** Which of the two callbacks [getCurrentPosition(success, error)] invokes. *)
Inductive PositionCallback : Type :=
| SuccessCallback
| ErrorCallback (e : PositionError.t)
| NoCallback.

Module Geolocation.
Record t : Type := Build { getCurrentPosition : PositionCallback }.
End Geolocation.

Module Permissions.
(** [query({ name })] settles with the [state] of the permission. *)
Record t : Type := Build { query : option (string → Promise string) }.
End Permissions.

Module MediaDevices.
Record t : Type := Build {
  getUserMedia : option (MediaStreamConstraints → Promise MediaStream);
  enumerateDevices : option (Promise (list MediaDeviceInfo)) }.
End MediaDevices.

Module Navigator.
(** The three legacy entry points take [(constraints, resolve, reject)]; the
    promise says how the [new Promise] wrapped around the call settles. *)
Record t : Type := Build {
  permissions : option Permissions.t;
  mediaDevices : option MediaDevices.t;
  getUserMedia : option (MediaStreamConstraints → Promise MediaStream);
  webkitGetUserMedia : option (MediaStreamConstraints → Promise MediaStream);
  mozGetUserMedia : option (MediaStreamConstraints → Promise MediaStream);
  geolocation : option Geolocation.t }.
End Navigator.

Module Notification.
(** [permission] is [undefined] or a string; [requestPermission()] settles
    with such a value (the callback form of old Safari returns [undefined]). *)
Record t : Type := Build {
  permission : option string;
  requestPermission : option (Promise (option string)) }.
End Notification.

Module MediaStreamTrack.
Record t : Type := Build {
  getSources : option (Promise (option (list MediaDeviceInfo))) }.
End MediaStreamTrack.

Module Window.
Record t : Type := Build {
  Notification : option Notification.t;
  MediaStreamTrack : option MediaStreamTrack.t }.
End Window.

Record Host : Type := { navigator : option Navigator.t; window : Window.t }.

(** ** Permissions.types *)

(** The members of the string enum [PermissionStatus].  [./Permissions.types]
    is imported by the source but is not part of it, so the three strings are
    parameters of the development. *)
Class PermissionStatus : Type := {
  GRANTED : string;
  DENIED : string;
  UNDETERMINED : string }.

Record PermissionInfo : Type := { status : string; expires : string }.

(** Modelled from the spec: the enum [PermissionStatus] of [./Permissions.types],
    a tri-state enum [GRANTED], [DENIED], [UNDETERMINED]; as a string enum its
    members are three distinct non-empty strings. *)
Definition expoPermissionStatus : PermissionStatus :=
  {| GRANTED := "granted"; DENIED := "denied"; UNDETERMINED := "undetermined" |}.

(** JavaScript truthiness of a value that is [undefined]/[null] or a string. *)
Definition truthy (v : option string) : bool :=
  match v with
  | Some s => negb (String.eqb s "")
  | None => false
  end.

(** ** The resolver *)

Section Resolver.
Context {PS : PermissionStatus}.

(** The function [_getUserMedia] falls back on when no host entry point
    exists: it throws inside the promise executor. *)
Definition unimplementedGetUserMedia (constraints : MediaStreamConstraints) : Promise MediaStream :=
  Rejected (Object (Error.Build "NotAllowedError" "Permission unimplemented" (Some 0))).

Definition _getUserMedia (h : Host) (constraints : MediaStreamConstraints) : Promise MediaStream :=
  match navigator h with
  | None => Rejected (Object (TypeError "mediaDevices"))
  | Some nav =>
    match Navigator.mediaDevices nav ≫= MediaDevices.getUserMedia with
    | Some modern => modern constraints
    | None =>
      let getUserMedia :=
        match Navigator.getUserMedia nav with
        | Some f => f
        | None =>
          match Navigator.webkitGetUserMedia nav with
          | Some f => f
          | None =>
            match Navigator.mozGetUserMedia nav with
            | Some f => f
            | None => unimplementedGetUserMedia
            end
          end
        end in
      getUserMedia constraints
    end
  end.

Definition askForMediaPermissionAsync (h : Host) (options : MediaStreamConstraints) : Promise PermissionInfo :=
  tryCatch
    (_ ← _getUserMedia h options;
     Resolved {| status := GRANTED; expires := "never" |})
    (λ thrown,
     match thrown with
     | Nullish => Rejected (Object (TypeError "message"))
     | Object e =>
       if String.eqb (Error.message e) "Permission dismissed"
       then Resolved {| status := UNDETERMINED; expires := "never" |}
       else Resolved {| status := DENIED; expires := "never" |}
     end).

Definition askForMicrophonePermissionAsync (h : Host) : Promise PermissionInfo :=
  askForMediaPermissionAsync h {| audio := true; video := false |}.

Definition askForCameraPermissionAsync (h : Host) : Promise PermissionInfo :=
  askForMediaPermissionAsync h {| audio := false; video := true |}.

Definition askForLocationPermissionAsync (h : Host) : Promise PermissionInfo :=
  match navigator h with
  | None => Rejected (Object (TypeError "geolocation"))
  | Some nav =>
    match Navigator.geolocation nav with
    | None => Rejected (Object (TypeError "getCurrentPosition"))
    | Some geo =>
      match Geolocation.getCurrentPosition geo with
      | SuccessCallback => Resolved {| status := GRANTED; expires := "never" |}
      | ErrorCallback e =>
        if PositionError.code e =? 1
        then Resolved {| status := DENIED; expires := "never" |}
        else Resolved {| status := UNDETERMINED; expires := "never" |}
      | NoCallback => Pending
      end
    end
  end.

Definition getPermissionWithQueryAsync (h : Host) (name : string) : Promise (option string) :=
  match (navigator h ≫= Navigator.permissions) ≫= Permissions.query with
  | None => Resolved None
  | Some query =>
    state ← query name;
    if String.eqb state "prompt" then Resolved (Some UNDETERMINED)
    else if String.eqb state "granted" then Resolved (Some GRANTED)
    else if String.eqb state "denied" then Resolved (Some DENIED)
    else Resolved None
  end.

Definition enumerateDevices (h : Host) : Promise (option (list MediaDeviceInfo)) :=
  match (navigator h ≫= Navigator.mediaDevices) ≫= MediaDevices.enumerateDevices with
  | Some enumerate => devices ← enumerate; Resolved (Some devices)
  | None =>
    match Window.MediaStreamTrack (window h) ≫= MediaStreamTrack.getSources with
    | Some getSources => getSources
    | None => Resolved None
    end
  end.

Definition getMediaMaybeGrantedAsync (h : Host) (targetKind : string) : Promise bool :=
  devices ← enumerateDevices h;
  match devices with
  | None => Resolved false
  | Some devices =>
    Resolved
      (existsb (λ d, negb (String.eqb (label d) ""))
         (List.filter (λ d, String.eqb (kind d) targetKind) devices))
  end.

(** The statement after the [switch] of [getPermissionAsync], where every
    [break] lands. *)
Definition afterSwitch : Promise PermissionInfo :=
  Resolved {| status := UNDETERMINED; expires := "never" |}.

(** Lines 140-150: the part of the notifications case that follows the
    capability query. *)
Definition nativeNotification (h : Host) (shouldAsk : bool) : Promise PermissionInfo :=
  match Window.Notification (window h) ≫= Notification.requestPermission with
  | Some requestPermission =>
    status ←
      (if shouldAsk
       then requestPermission
       else Resolved (Window.Notification (window h) ≫= Notification.permission));
    match status with
    | Some s =>
      if negb (truthy status) || String.eqb s "default"
      then Resolved {| status := UNDETERMINED; expires := "never" |}
      else Resolved {| status := s; expires := "never" |}
    | None => Resolved {| status := UNDETERMINED; expires := "never" |}
    end
  | None => afterSwitch
  end.

Definition notificationsCase (h : Host) (shouldAsk : bool) : Promise PermissionInfo :=
  if negb shouldAsk
  then
    status ← getPermissionWithQueryAsync h "notifications";
    match status with
    | Some s =>
      if truthy status
      then Resolved {| status := s; expires := "never" |}
      else nativeNotification h shouldAsk
    | None => nativeNotification h shouldAsk
    end
  else nativeNotification h shouldAsk.

Definition locationCase (h : Host) (shouldAsk : bool) : Promise PermissionInfo :=
  maybeStatus ← getPermissionWithQueryAsync h "geolocation";
  match maybeStatus with
  | Some s =>
    if truthy maybeStatus
    then
      if String.eqb s UNDETERMINED && shouldAsk
      then askForLocationPermissionAsync h
      else Resolved {| status := s; expires := "never" |}
    else if shouldAsk then askForLocationPermissionAsync h
    else afterSwitch
  | None =>
    if shouldAsk then askForLocationPermissionAsync h
    else afterSwitch
  end.

Definition audioRecordingCase (h : Host) (shouldAsk : bool) : Promise PermissionInfo :=
  maybeStatus ← getPermissionWithQueryAsync h "microphone";
  let otherwise :=
    if shouldAsk then askForMicrophonePermissionAsync h
    else
      maybeGranted ← getMediaMaybeGrantedAsync h "audioinput";
      if maybeGranted : bool
      then Resolved {| status := GRANTED; expires := "never" |}
      else afterSwitch in
  match maybeStatus with
  | Some s =>
    if truthy maybeStatus
    then
      if String.eqb s UNDETERMINED && shouldAsk
      then askForMicrophonePermissionAsync h
      else Resolved {| status := s; expires := "never" |}
    else otherwise
  | None => otherwise
  end.

Definition cameraCase (h : Host) (shouldAsk : bool) : Promise PermissionInfo :=
  maybeStatus ← getPermissionWithQueryAsync h "camera";
  let otherwise :=
    if shouldAsk then askForCameraPermissionAsync h
    else
      maybeGranted ← getMediaMaybeGrantedAsync h "videoinput";
      if maybeGranted : bool
      then Resolved {| status := GRANTED; expires := "never" |}
      else afterSwitch in
  match maybeStatus with
  | Some s =>
    if truthy maybeStatus
    then
      if String.eqb s UNDETERMINED && shouldAsk
      then askForCameraPermissionAsync h
      else Resolved {| status := s; expires := "never" |}
    else otherwise
  | None => otherwise
  end.

Definition getPermissionAsync (h : Host) (permission : string) (shouldAsk : bool) : Promise PermissionInfo :=
  if String.eqb permission "userFacingNotifications" || String.eqb permission "notifications"
  then notificationsCase h shouldAsk
  else if String.eqb permission "location" then locationCase h shouldAsk
  else if String.eqb permission "audioRecording" then audioRecordingCase h shouldAsk
  else if String.eqb permission "camera" then cameraCase h shouldAsk
  else afterSwitch.

(** ** The batch operations *)

(** [new Set(iterable)]: each element is added in turn, and an element already
    present keeps its place, so iteration follows first occurrences. *)
Definition setAdd (set : list string) (value : string) : list string :=
  if decide (value ∈ set) then set else set ++ [value].

Definition newSet (iterable : list string) : list string :=
  foldl setAdd [] iterable.

(** The object [results], a plain object used as a map: its own properties,
    and its prototype when that is no longer [Object.prototype]. *)
Record PermissionMap : Type := {
  own : gmap string PermissionInfo;
  prototype : option PermissionInfo }.

(** [const results = {}]. *)
Definition emptyObject : PermissionMap := {| own := ∅; prototype := None |}.

(** [results[key] = info] on such an object.  Every key becomes an own
    property, except ["__proto__"]: that one is the accessor inherited from
    [Object.prototype], whose setter makes [info] the prototype of [results]
    and adds no property. *)
Definition assign (results : PermissionMap) (key : string) (info : PermissionInfo) : PermissionMap :=
  if String.eqb key "__proto__"
  then {| own := own results; prototype := Some info |}
  else {| own := <[key := info]> (own results); prototype := prototype results |}.

(** The [for ... of] loop that [getAsync] and [askAsync] both run, one with
    [shouldAsk] false and one with it true:
    [results[permissionType] = await getPermissionAsync(permissionType, shouldAsk)]. *)
Fixpoint forOf (h : Host) (shouldAsk : bool) (permissionTypes : list string)
    (results : PermissionMap) : Promise PermissionMap :=
  match permissionTypes with
  | [] => Resolved results
  | permissionType :: rest =>
    info ← getPermissionAsync h permissionType shouldAsk;
    forOf h shouldAsk rest (assign results permissionType info)
  end.

Definition getAsync (h : Host) (permissionTypes : list string) : Promise PermissionMap :=
  forOf h false (newSet permissionTypes) emptyObject.

Definition askAsync (h : Host) (permissionTypes : list string) : Promise PermissionMap :=
  forOf h true (newSet permissionTypes) emptyObject.

End Resolver.

(** ** Properties of a host that the statements below refer to *)

(** The capability query of the host, [navigator.permissions.query], when
    [navigator], [permissions] and [query] are all there. *)
Definition hostQuery (h : Host) : option (string → Promise string) :=
  (navigator h ≫= Navigator.permissions) ≫= Permissions.query.

(** What the capability query answers for [name], when the host has one. *)
Definition capabilityQuery (h : Host) (name : string) : option (Promise string) :=
  query ← hostQuery h;
  Some (query name).

Definition queryFails (h : Host) (name : string) : bool :=
  match capabilityQuery h name with
  | Some answer => rejected answer
  | None => false
  end.

Definition enumerationFails (h : Host) : bool :=
  match (navigator h ≫= Navigator.mediaDevices) ≫= MediaDevices.enumerateDevices with
  | Some enumerate => rejected enumerate
  | None =>
    match Window.MediaStreamTrack (window h) ≫= MediaStreamTrack.getSources with
    | Some getSources => rejected getSources
    | None => false
    end
  end.

Definition requestPermissionFails (h : Host) : bool :=
  match Window.Notification (window h) ≫= Notification.requestPermission with
  | Some request => rejected request
  | None => false
  end.

Definition hasGeolocation (h : Host) : bool :=
  bool_decide (is_Some (navigator h ≫= Navigator.geolocation)).

(** The host failures that resolving [permission] lets through to the caller:
    those of the calls it makes outside a handler.  The notification types
    consult the capability query when not asking and call
    [requestPermission()] when asking; location consults the query and, when
    asking, may reach for [navigator.geolocation]; audioRecording and camera
    consult the query and then may enumerate devices (not asking) or request
    media (asking), where only a rejection with [undefined] or [null] escapes
    the [catch].  An unrecognized type calls nothing. *)
Definition unguardedFailure (h : Host) (permission : string) (shouldAsk : bool) : bool :=
  if String.eqb permission "userFacingNotifications" || String.eqb permission "notifications"
  then (if shouldAsk then requestPermissionFails h else queryFails h "notifications")
  else if String.eqb permission "location"
  then queryFails h "geolocation" || shouldAsk && negb (hasGeolocation h)
  else if String.eqb permission "audioRecording"
  then queryFails h "microphone"
       || (if shouldAsk
           then rejectedNullish (_getUserMedia h {| audio := true; video := false |})
           else enumerationFails h)
  else if String.eqb permission "camera"
  then queryFails h "camera"
       || (if shouldAsk
           then rejectedNullish (_getUserMedia h {| audio := false; video := true |})
           else enumerationFails h)
  else false.

(** The name each case of the [switch] passes to the capability query. *)
Definition capabilityName (permission : string) : option string :=
  if String.eqb permission "userFacingNotifications" || String.eqb permission "notifications"
  then Some "notifications"
  else if String.eqb permission "location" then Some "geolocation"
  else if String.eqb permission "audioRecording" then Some "microphone"
  else if String.eqb permission "camera" then Some "camera"
  else None.

(** The device kind the audioRecording and camera cases look for. *)
Definition deviceKind (permission : string) : option string :=
  if String.eqb permission "audioRecording" then Some "audioinput"
  else if String.eqb permission "camera" then Some "videoinput"
  else None.

(** Every info the object holds, as an own property or as its prototype,
    carries the expiry marker. *)
Definition allNeverExpire (m : PermissionMap) : Prop :=
  map_Forall (λ _ info, expires info = "never") (own m)
  ∧ ∀ info, prototype m = Some info → expires info = "never".

(** The promise, if it is fulfilled, carries the expiry marker. *)
Definition neverExpires (p : Promise PermissionInfo) : Prop :=
  match p with
  | Resolved info => expires info = "never"
  | _ => True
  end.

(** What a permission type resolves to, when resolving it is fulfilled. *)
Definition resolution {PS : PermissionStatus} (h : Host) (shouldAsk : bool)
    (permissionType : string) : option PermissionInfo :=
  match getPermissionAsync h permissionType shouldAsk with
  | Resolved info => Some info
  | _ => None
  end.

Definition recognized : list string :=
  ["notifications"; "userFacingNotifications"; "location"; "audioRecording"; "camera"].

(** ** Hosts used as concrete inputs *)

Definition bareWindow : Window.t := Window.Build None None.

(** A browser whose [permissions.query] rejects the descriptor, as Firefox
    does for the names it does not know. *)
Definition hostQueryThrows : Host :=
  {| navigator :=
       Some (Navigator.Build
               (Some (Permissions.Build
                        (Some (λ _, Rejected (Object (Error.Build "TypeError" "not a valid value for enumeration PermissionName" None))))))
               None None None None None);
     window := bareWindow |}.

(** A browser whose capability query answers [state] for every name and that
    has no [Notification] global. *)
Definition hostQueryOnly (state : string) : Host :=
  {| navigator :=
       Some (Navigator.Build
               (Some (Permissions.Build (Some (λ _, Resolved state))))
               None None None None None);
     window := bareWindow |}.

Definition builtInMicrophone : MediaDeviceInfo := {| kind := "audioinput"; label := "Built-in Microphone" |}.
Definition anonymousCamera : MediaDeviceInfo := {| kind := "videoinput"; label := "" |}.

(** A browser without the Permissions API whose user refuses every prompt:
    [getUserMedia] rejects, geolocation reports [POSITION_UNAVAILABLE] (code 2),
    notifications stay at their default. *)
Definition hostNoQuery : Host :=
  {| navigator :=
       Some (Navigator.Build
               None
               (Some (MediaDevices.Build
                        (Some (λ _, Rejected (Object (Error.Build "NotAllowedError" "Permission denied" (Some 0)))))
                        (Some (Resolved [builtInMicrophone; anonymousCamera]))))
               None None None
               (Some (Geolocation.Build (ErrorCallback (PositionError.Build 2)))));
     window :=
       Window.Build
         (Some (Notification.Build (Some "default") (Some (Resolved (Some "default")))))
         None |}.

(** ** Further properties of a host, and further hosts *)

(** The capability query gives no verdict under [name]: the host has no query,
    or the query answers a state other than ["granted"] and ["denied"]. *)
Definition noVerdict (h : Host) (name : string) : Prop :=
  hostQuery h = None
  ∨ ∃ state, capabilityQuery h name = Some (Resolved state)
             ∧ state ≠ "granted" ∧ state ≠ "denied".

(** [Notification.permission], [undefined] when there is no [Notification]. *)
Definition nativePermission (h : Host) : option string :=
  Window.Notification (window h) ≫= Notification.permission.

(** Whether [Notification.requestPermission] is there. *)
Definition canRequestNotification (h : Host) : bool :=
  bool_decide (is_Some (Window.Notification (window h) ≫= Notification.requestPermission)).

(** The promise, if it is fulfilled, carries a member of [PermissionStatus]. *)
Definition enumStatus {PS : PermissionStatus} (p : Promise PermissionInfo) : Prop :=
  match p with
  | Resolved info =>
    status info = GRANTED ∨ status info = DENIED ∨ status info = UNDETERMINED
  | _ => True
  end.

(** A browser with none of the optional APIs. *)
Definition hostBare : Host :=
  {| navigator := Some (Navigator.Build None None None None None None);
     window := bareWindow |}.

(** [hostNoQuery] with a user who accepts every prompt: the passive APIs
    answer as there, the prompting ones succeed. *)
Definition hostNoQueryAccepting : Host :=
  {| navigator :=
       Some (Navigator.Build
               None
               (Some (MediaDevices.Build
                        (Some (λ _, Resolved aMediaStream))
                        (Some (Resolved [builtInMicrophone; anonymousCamera]))))
               None None None
               (Some (Geolocation.Build SuccessCallback)));
     window :=
       Window.Build
         (Some (Notification.Build (Some "default") (Some (Resolved (Some "granted")))))
         None |}.

(** A browser whose only optional API is [Notification], with the permission
    already at [value]. *)
Definition hostNotified (value : string) : Host :=
  {| navigator := Some (Navigator.Build None None None None None None);
     window :=
       Window.Build
         (Some (Notification.Build (Some value) (Some (Resolved (Some value)))))
         None |}.

(** A browser whose only media entry point is the legacy
    [webkitGetUserMedia], which calls [reject] without an argument. *)
Definition hostRejectsWithoutError : Host :=
  {| navigator :=
       Some (Navigator.Build None None None (Some (λ _, Rejected Nullish)) None None);
     window := bareWindow |}.

(** A browser whose geolocation never calls back, the user leaving the prompt
    unanswered. *)
Definition hostSilentGeolocation : Host :=
  {| navigator :=
       Some (Navigator.Build None None None None None
               (Some (Geolocation.Build NoCallback)));
     window := bareWindow |}.

(** ** Promises: basic facts *)

Ltac split_ifs :=
  repeat match goal with
         | |- context [if ?b then _ else _] => destruct b
         end.

Lemma bind_Resolved {A B} (p : Promise A) (k : A → Promise B) (b : B) :
  p ≫= k = Resolved b ↔ ∃ a, p = Resolved a ∧ k a = Resolved b.
Proof.
  destruct p as [a|e|]; simpl; split.
  - intros Hk. exists a. by split.
  - intros (a' & [= <-] & Hk). exact Hk.
  - discriminate.
  - by intros (a' & [=] & _).
  - discriminate.
  - by intros (a' & [=] & _).
Qed.

Lemma rejected_bind {A B} (p : Promise A) (k : A → Promise B) :
  rejected p = false → (∀ a, rejected (k a) = false) → rejected (p ≫= k) = false.
Proof. intros Hp Hk. destruct p as [a|e|]; simpl in *; [apply Hk | done | done]. Qed.

Lemma eqb_of_neq (s t : string) : s ≠ t → String.eqb s t = false.
Proof. apply String.eqb_neq. Qed.

(** ** The set of the requested types *)

Lemma elem_of_foldl_setAdd (iterable set : list string) (x : string) :
  x ∈ foldl setAdd set iterable ↔ x ∈ set ∨ x ∈ iterable.
Proof.
  revert set. induction iterable as [|value rest IH]; intros set; simpl.
  - rewrite elem_of_nil. tauto.
  - rewrite IH, elem_of_cons. unfold setAdd.
    case_decide as Hin.
    + split; [tauto|]. intros [?|[->|?]]; tauto.
    + rewrite elem_of_app, list_elem_of_singleton. tauto.
Qed.

Lemma elem_of_newSet (iterable : list string) (x : string) :
  x ∈ newSet iterable ↔ x ∈ iterable.
Proof.
  unfold newSet. rewrite elem_of_foldl_setAdd, elem_of_nil. tauto.
Qed.

Lemma NoDup_foldl_setAdd (iterable set : list string) :
  NoDup set → NoDup (foldl setAdd set iterable).
Proof.
  revert set. induction iterable as [|value rest IH]; intros set Hset; simpl.
  - exact Hset.
  - apply IH. unfold setAdd. case_decide as Hin; [exact Hset|].
    apply NoDup_app. split; [exact Hset|]. split.
    + intros y Hy Hy'. apply list_elem_of_singleton in Hy' as ->. contradiction.
    + apply NoDup_singleton.
Qed.

Lemma NoDup_newSet (iterable : list string) : NoDup (newSet iterable).
Proof. apply NoDup_foldl_setAdd, NoDup_nil_2. Qed.

Lemma newSet_twice (x : string) : newSet [x; x] = newSet [x].
Proof.
  assert (setAdd [] x = [x]) as Hfirst.
  { unfold setAdd. by rewrite decide_False by apply not_elem_of_nil. }
  unfold newSet. simpl. rewrite Hfirst.
  unfold setAdd. by rewrite decide_True by (by apply list_elem_of_singleton).
Qed.

(** ** Unrecognized permission types *)

(** C3. For every permission type outside the five recognized ones and for
    either value of [shouldAsk], [getPermissionAsync] resolves to a
    [PermissionInfo] whose status is [UNDETERMINED]. *)
Theorem getPermissionAsync_unrecognized {PS : PermissionStatus}
    (h : Host) (permission : string) (shouldAsk : bool) :
  permission ∉ recognized →
  getPermissionAsync h permission shouldAsk
  = Resolved {| status := UNDETERMINED; expires := "never" |}.
Proof.
  intros Hnot. unfold recognized in Hnot.
  repeat rewrite not_elem_of_cons in Hnot.
  destruct Hnot as (Hn & Hu & Hl & Ha & Hc & _).
  unfold getPermissionAsync.
  rewrite (eqb_of_neq _ _ Hn), (eqb_of_neq _ _ Hu), (eqb_of_neq _ _ Hl),
    (eqb_of_neq _ _ Ha), (eqb_of_neq _ _ Hc).
  reflexivity.
Qed.

Lemma getPermissionAsync_unrecognized_witness :
  getPermissionAsync (PS := expoPermissionStatus) hostNoQuery "contacts" true
  = Resolved {| status := "undetermined"; expires := "never" |}.
Proof.
  apply (getPermissionAsync_unrecognized (PS := expoPermissionStatus) hostNoQuery "contacts" true).
  apply (bool_decide_unpack _). vm_compute. reflexivity.
Defined.

(** ** Media access requests *)

(** C4. A camera or microphone request is [_getUserMedia] with the matching
    constraints.  When it succeeds the status is [GRANTED]; when it fails with
    an error whose message is exactly ["Permission dismissed"] the status is
    [UNDETERMINED]; when it fails with any other message the status is
    [DENIED].  The microphone and camera requests are the instances at
    [{ audio: true }] and [{ video: true }]. *)
Theorem askForMediaPermissionAsync_status {PS : PermissionStatus}
    (h : Host) (options : MediaStreamConstraints) :
  (∀ stream, _getUserMedia h options = Resolved stream →
     askForMediaPermissionAsync h options
     = Resolved {| status := GRANTED; expires := "never" |})
  ∧ (∀ e, _getUserMedia h options = Rejected (Object e) →
       Error.message e = "Permission dismissed" →
       askForMediaPermissionAsync h options
       = Resolved {| status := UNDETERMINED; expires := "never" |})
  ∧ (∀ e, _getUserMedia h options = Rejected (Object e) →
       Error.message e ≠ "Permission dismissed" →
       askForMediaPermissionAsync h options
       = Resolved {| status := DENIED; expires := "never" |})
  ∧ askForMicrophonePermissionAsync h
    = askForMediaPermissionAsync h {| audio := true; video := false |}
  ∧ askForCameraPermissionAsync h
    = askForMediaPermissionAsync h {| audio := false; video := true |}.
Proof.
  unfold askForMediaPermissionAsync.
  repeat split.
  - intros stream ->. reflexivity.
  - intros e -> Hmsg. simpl. rewrite Hmsg. reflexivity.
  - intros e -> Hmsg. simpl. rewrite (eqb_of_neq _ _ Hmsg). reflexivity.
Qed.

Lemma askForMediaPermissionAsync_status_witness :
  askForMediaPermissionAsync (PS := expoPermissionStatus) hostNoQuery
    {| audio := false; video := true |}
  = Resolved {| status := "denied"; expires := "never" |}.
Proof.
  apply (proj1 (proj2 (proj2
    (askForMediaPermissionAsync_status (PS := expoPermissionStatus) hostNoQuery
       {| audio := false; video := true |})))
    (Error.Build "NotAllowedError" "Permission denied" (Some 0))).
  - reflexivity.
  - discriminate.
Defined.

(** ** Geolocation requests *)

(** C5. When the location permission is asked for and the host has a
    geolocation object, the position request decides the result: the success
    callback gives [GRANTED], the error callback with code 1 gives [DENIED],
    and the error callback with any other code gives [UNDETERMINED]. *)
Theorem askForLocationPermissionAsync_status {PS : PermissionStatus}
    (h : Host) (geo : Geolocation.t) :
  navigator h ≫= Navigator.geolocation = Some geo →
  (Geolocation.getCurrentPosition geo = SuccessCallback →
     askForLocationPermissionAsync h
     = Resolved {| status := GRANTED; expires := "never" |})
  ∧ (∀ e, Geolocation.getCurrentPosition geo = ErrorCallback e →
       PositionError.code e = 1 →
       askForLocationPermissionAsync h
       = Resolved {| status := DENIED; expires := "never" |})
  ∧ (∀ e, Geolocation.getCurrentPosition geo = ErrorCallback e →
       PositionError.code e ≠ 1 →
       askForLocationPermissionAsync h
       = Resolved {| status := UNDETERMINED; expires := "never" |}).
Proof.
  intros Hgeo. unfold askForLocationPermissionAsync.
  destruct (navigator h) as [nav|]; simpl in Hgeo; [|discriminate].
  rewrite Hgeo.
  repeat split.
  - intros ->. reflexivity.
  - intros e -> ->. reflexivity.
  - intros e -> Hcode. apply Z.eqb_neq in Hcode. rewrite Hcode. reflexivity.
Qed.

Lemma askForLocationPermissionAsync_status_witness :
  askForLocationPermissionAsync (PS := expoPermissionStatus) hostNoQuery
  = Resolved {| status := "undetermined"; expires := "never" |}.
Proof.
  apply (proj2 (proj2
    (askForLocationPermissionAsync_status (PS := expoPermissionStatus) hostNoQuery
       (Geolocation.Build (ErrorCallback (PositionError.Build 2))) eq_refl))
    (PositionError.Build 2)).
  - reflexivity.
  - simpl. lia.
Defined.

(** ** Aliases *)

(** C10. In every host and for either value of [shouldAsk], resolving
    [userFacingNotifications] gives exactly what resolving [notifications]
    gives: both labels select the same case of the switch. *)
Theorem getPermissionAsync_userFacingNotifications {PS : PermissionStatus}
    (h : Host) (shouldAsk : bool) :
  getPermissionAsync h "userFacingNotifications" shouldAsk
  = getPermissionAsync h "notifications" shouldAsk
  ∧ getPermissionAsync h "notifications" shouldAsk = notificationsCase h shouldAsk.
Proof. split; reflexivity. Qed.

(** ** The expiry marker *)

Lemma neverExpires_bind {A} (p : Promise A) (k : A → Promise PermissionInfo) :
  (∀ a, neverExpires (k a)) → neverExpires (p ≫= k).
Proof. intros Hk. destruct p as [a|e|]; simpl; [apply Hk | exact I | exact I]. Qed.

Lemma neverExpires_Resolved (s : string) :
  neverExpires (Resolved {| status := s; expires := "never" |}).
Proof. reflexivity. Qed.

Create HintDb expiry.
#[local] Hint Resolve neverExpires_Resolved : expiry.

Section Expiry.
Context {PS : PermissionStatus} (h : Host).

Lemma askForMediaPermissionAsync_expires options :
  neverExpires (askForMediaPermissionAsync h options).
Proof.
  unfold askForMediaPermissionAsync.
  destruct (_getUserMedia h options) as [stream|[|e]|]; simpl; [done|done| |done].
  destruct (String.eqb _ _); done.
Qed.

Lemma askForLocationPermissionAsync_expires :
  neverExpires (askForLocationPermissionAsync h).
Proof.
  unfold askForLocationPermissionAsync.
  destruct (navigator h) as [nav|]; [|done].
  destruct (Navigator.geolocation nav) as [geo|]; [|done].
  destruct (Geolocation.getCurrentPosition geo) as [|e|]; [done| |done].
  destruct (_ =? _); done.
Qed.

Lemma afterSwitch_expires : neverExpires afterSwitch.
Proof. reflexivity. Qed.

Lemma nativeNotification_expires shouldAsk :
  neverExpires (nativeNotification h shouldAsk).
Proof.
  unfold nativeNotification.
  destruct (_ ≫= Notification.requestPermission) as [request|]; [|done].
  apply neverExpires_bind. intros [s|]; [|done].
  destruct (_ || _); done.
Qed.

Lemma notificationsCase_expires shouldAsk :
  neverExpires (notificationsCase h shouldAsk).
Proof.
  unfold notificationsCase.
  destruct (negb shouldAsk); [|apply nativeNotification_expires].
  apply neverExpires_bind. intros [s|]; [|apply nativeNotification_expires].
  destruct (truthy _); [done | apply nativeNotification_expires].
Qed.

Lemma locationCase_expires shouldAsk :
  neverExpires (locationCase h shouldAsk).
Proof.
  unfold locationCase.
  apply neverExpires_bind. intros [s|];
    repeat match goal with
           | |- neverExpires (if ?b then _ else _) => destruct b
           end;
    auto using askForLocationPermissionAsync_expires, afterSwitch_expires with expiry.
Qed.

Lemma audioRecordingCase_expires shouldAsk :
  neverExpires (audioRecordingCase h shouldAsk).
Proof.
  unfold audioRecordingCase, askForMicrophonePermissionAsync.
  apply neverExpires_bind. intros [s|]; cbv zeta;
    repeat match goal with
           | |- neverExpires (if ?b then _ else _) => destruct b
           | |- neverExpires (_ ≫= _) => apply neverExpires_bind; intros ?
           end;
    auto using askForMediaPermissionAsync_expires, afterSwitch_expires with expiry.
Qed.

Lemma cameraCase_expires shouldAsk :
  neverExpires (cameraCase h shouldAsk).
Proof.
  unfold cameraCase, askForCameraPermissionAsync.
  apply neverExpires_bind. intros [s|]; cbv zeta;
    repeat match goal with
           | |- neverExpires (if ?b then _ else _) => destruct b
           | |- neverExpires (_ ≫= _) => apply neverExpires_bind; intros ?
           end;
    auto using askForMediaPermissionAsync_expires, afterSwitch_expires with expiry.
Qed.

Lemma getPermissionAsync_neverExpires permission shouldAsk :
  neverExpires (getPermissionAsync h permission shouldAsk).
Proof.
  unfold getPermissionAsync.
  repeat match goal with
         | |- neverExpires (if ?b then _ else _) => destruct b
         end;
    auto using notificationsCase_expires, locationCase_expires,
      audioRecordingCase_expires, cameraCase_expires, afterSwitch_expires.
Qed.

(** Every value the loop stores has the marker, when those already in
    [results] have it. *)
Lemma forOf_expires shouldAsk permissionTypes :
  ∀ results m,
    allNeverExpire results →
    forOf h shouldAsk permissionTypes results = Resolved m →
    allNeverExpire m.
Proof.
  induction permissionTypes as [|permissionType rest IH]; intros results m Hres Hrun.
  - simpl in Hrun. by injection Hrun as <-.
  - simpl in Hrun. apply bind_Resolved in Hrun as (info & Hinfo & Hrest).
    apply IH in Hrest; [exact Hrest|].
    pose proof (getPermissionAsync_neverExpires permissionType shouldAsk) as Hexp.
    rewrite Hinfo in Hexp. simpl in Hexp.
    destruct Hres as [Hown Hproto]. unfold assign.
    destruct (String.eqb permissionType "__proto__"); split; simpl.
    + exact Hown.
    + by intros ? [= <-].
    + by apply map_Forall_insert_2.
    + exact Hproto.
Qed.

End Expiry.

(** C7. Every [PermissionInfo] that [getPermissionAsync] resolves to, for any
    permission type, either value of [shouldAsk] and any host, has [expires]
    equal to ["never"]; so has every value of a map returned by [getAsync] or
    by [askAsync], be it stored as an own property or as the prototype. *)
Theorem expires_never {PS : PermissionStatus} (h : Host) :
  (∀ permission shouldAsk info,
     getPermissionAsync h permission shouldAsk = Resolved info →
     expires info = "never")
  ∧ (∀ permissionTypes m permissionType info,
       getAsync h permissionTypes = Resolved m ∨ askAsync h permissionTypes = Resolved m →
       own m !! permissionType = Some info ∨ prototype m = Some info →
       expires info = "never").
Proof.
  split.
  - intros permission shouldAsk info Hinfo.
    pose proof (getPermissionAsync_neverExpires h permission shouldAsk) as Hexp.
    by rewrite Hinfo in Hexp.
  - intros permissionTypes m permissionType info Hrun Hlookup.
    assert (allNeverExpire emptyObject) as Hempty.
    { split; [apply map_Forall_empty | discriminate]. }
    assert (allNeverExpire m) as [Hown Hproto].
    { destruct Hrun as [Hrun|Hrun];
        eapply forOf_expires in Hrun; try exact Hrun; exact Hempty. }
    destruct Hlookup as [Hlookup|Hlookup]; [exact (Hown _ _ Hlookup) | by apply Hproto].
Qed.

Lemma expires_never_witness :
  ∃ info,
    getPermissionAsync (PS := expoPermissionStatus) hostNoQuery "camera" true = Resolved info
    ∧ expires info = "never".
Proof.
  exists {| status := "denied"; expires := "never" |}. split; [reflexivity|].
  apply (proj1 (expires_never (PS := expoPermissionStatus) hostNoQuery) "camera" true).
  reflexivity.
Defined.

(** ** Which host failures reach the caller *)

Section Rejection.
Context {PS : PermissionStatus} (h : Host).

(** The [try]/[catch] of [askForMediaPermissionAsync] turns every failure of
    [_getUserMedia] into a status, except a rejection with [undefined] or
    [null], of which [catch ({ message })] cannot read the message. *)
Lemma askForMediaPermissionAsync_not_rejected options :
  rejectedNullish (_getUserMedia h options) = false →
  rejected (askForMediaPermissionAsync h options) = false.
Proof.
  unfold askForMediaPermissionAsync.
  destruct (_getUserMedia h options) as [stream|[|e]|]; simpl; [done|done| |done].
  intros _. destruct (String.eqb _ _); done.
Qed.

Lemma askForLocationPermissionAsync_not_rejected :
  hasGeolocation h = true →
  rejected (askForLocationPermissionAsync h) = false.
Proof.
  unfold hasGeolocation, askForLocationPermissionAsync.
  intros Hgeo. apply bool_decide_eq_true in Hgeo as [geo Hgeo].
  destruct (navigator h) as [nav|]; simpl in Hgeo; [|discriminate].
  rewrite Hgeo.
  destruct (Geolocation.getCurrentPosition geo) as [|e|]; [done| |done].
  destruct (_ =? _); done.
Qed.

Lemma getPermissionWithQueryAsync_not_rejected name :
  queryFails h name = false →
  rejected (getPermissionWithQueryAsync h name) = false.
Proof.
  unfold queryFails, capabilityQuery, hostQuery, getPermissionWithQueryAsync.
  destruct (_ ≫= Permissions.query) as [query|]; simpl; [|done].
  intros Hq. apply rejected_bind; [exact Hq|].
  intros state. repeat (destruct (String.eqb state _); [done|]). done.
Qed.

Lemma enumerateDevices_not_rejected :
  enumerationFails h = false →
  rejected (enumerateDevices h) = false.
Proof.
  unfold enumerationFails, enumerateDevices.
  destruct (_ ≫= MediaDevices.enumerateDevices) as [enumerate|].
  - intros He. by apply rejected_bind.
  - destruct (_ ≫= MediaStreamTrack.getSources) as [getSources|]; done.
Qed.

Lemma getMediaMaybeGrantedAsync_not_rejected targetKind :
  enumerationFails h = false →
  rejected (getMediaMaybeGrantedAsync h targetKind) = false.
Proof.
  intros He. unfold getMediaMaybeGrantedAsync.
  apply rejected_bind; [by apply enumerateDevices_not_rejected|].
  intros [devices|]; done.
Qed.

Lemma nativeNotification_not_rejected shouldAsk :
  requestPermissionFails h = false →
  rejected (nativeNotification h shouldAsk) = false.
Proof.
  unfold requestPermissionFails, nativeNotification.
  destruct (_ ≫= Notification.requestPermission) as [request|]; [|done].
  intros Hr. apply rejected_bind.
  - by destruct shouldAsk.
  - intros [s|]; [|done]. destruct (_ || _); done.
Qed.

Lemma nativeNotification_passive_not_rejected :
  rejected (nativeNotification h false) = false.
Proof.
  unfold nativeNotification.
  destruct (_ ≫= Notification.requestPermission) as [request|]; [|done].
  apply rejected_bind; [done|].
  intros [s|]; [|done]. destruct (_ || _); done.
Qed.

Lemma getPermissionWithQueryAsync_rejected name :
  queryFails h name = true →
  rejected (getPermissionWithQueryAsync h name) = true.
Proof.
  unfold queryFails, capabilityQuery, hostQuery, getPermissionWithQueryAsync.
  destruct (_ ≫= Permissions.query) as [query|]; simpl; [|done].
  destruct (query name); simpl; done.
Qed.

Lemma notificationsCase_not_rejected (shouldAsk : bool) :
  (if shouldAsk then requestPermissionFails h else queryFails h "notifications") = false →
  rejected (notificationsCase h shouldAsk) = false.
Proof.
  unfold notificationsCase. destruct shouldAsk; simpl negb; cbv iota.
  - apply nativeNotification_not_rejected.
  - intros Hq. apply rejected_bind; [by apply getPermissionWithQueryAsync_not_rejected|].
    pose proof nativeNotification_passive_not_rejected.
    intros [s|]; [|done]. destruct (truthy _); done.
Qed.

Lemma locationCase_not_rejected (shouldAsk : bool) :
  queryFails h "geolocation" || shouldAsk && negb (hasGeolocation h) = false →
  rejected (locationCase h shouldAsk) = false.
Proof.
  intros [Hq Hg]%orb_false_elim. unfold locationCase.
  apply rejected_bind; [by apply getPermissionWithQueryAsync_not_rejected|].
  destruct shouldAsk; simpl in Hg.
  - apply negb_false_iff, askForLocationPermissionAsync_not_rejected in Hg.
    intros [s|]; split_ifs; done.
  - intros [s|]; rewrite ?andb_false_r; split_ifs; done.
Qed.

Lemma audioRecordingCase_not_rejected (shouldAsk : bool) :
  queryFails h "microphone"
  || (if shouldAsk
      then rejectedNullish (_getUserMedia h {| audio := true; video := false |})
      else enumerationFails h) = false →
  rejected (audioRecordingCase h shouldAsk) = false.
Proof.
  intros [Hq Hrest]%orb_false_elim.
  unfold audioRecordingCase, askForMicrophonePermissionAsync.
  apply rejected_bind; [by apply getPermissionWithQueryAsync_not_rejected|].
  destruct shouldAsk.
  - apply askForMediaPermissionAsync_not_rejected in Hrest.
    intros [s|]; cbv zeta; split_ifs; done.
  - pose proof (getMediaMaybeGrantedAsync_not_rejected "audioinput" Hrest) as Henum.
    intros [s|]; cbv zeta; rewrite ?andb_false_r; split_ifs; try done;
      (apply rejected_bind; [exact Henum | intros []; done]).
Qed.

Lemma cameraCase_not_rejected (shouldAsk : bool) :
  queryFails h "camera"
  || (if shouldAsk
      then rejectedNullish (_getUserMedia h {| audio := false; video := true |})
      else enumerationFails h) = false →
  rejected (cameraCase h shouldAsk) = false.
Proof.
  intros [Hq Hrest]%orb_false_elim.
  unfold cameraCase, askForCameraPermissionAsync.
  apply rejected_bind; [by apply getPermissionWithQueryAsync_not_rejected|].
  destruct shouldAsk.
  - apply askForMediaPermissionAsync_not_rejected in Hrest.
    intros [s|]; cbv zeta; split_ifs; done.
  - pose proof (getMediaMaybeGrantedAsync_not_rejected "videoinput" Hrest) as Henum.
    intros [s|]; cbv zeta; rewrite ?andb_false_r; split_ifs; try done;
      (apply rejected_bind; [exact Henum | intros []; done]).
Qed.

Lemma getPermissionAsync_guarded permission shouldAsk :
  unguardedFailure h permission shouldAsk = false →
  rejected (getPermissionAsync h permission shouldAsk) = false.
Proof.
  unfold unguardedFailure, getPermissionAsync.
  destruct (_ || _); [apply notificationsCase_not_rejected|].
  destruct (String.eqb permission "location"); [apply locationCase_not_rejected|].
  destruct (String.eqb permission "audioRecording"); [apply audioRecordingCase_not_rejected|].
  destruct (String.eqb permission "camera"); [apply cameraCase_not_rejected|].
  done.
Qed.

Lemma forOf_not_rejected shouldAsk permissionTypes :
  (∀ t, t ∈ permissionTypes → rejected (getPermissionAsync h t shouldAsk) = false) →
  ∀ results, rejected (forOf h shouldAsk permissionTypes results) = false.
Proof.
  induction permissionTypes as [|permissionType rest IH]; intros Hall results.
  - reflexivity.
  - cbn [forOf]. apply rejected_bind; [apply Hall, list_elem_of_here|].
    intros info. apply IH. intros t Ht. apply Hall. by apply list_elem_of_further.
Qed.

End Rejection.

(** C1, as the code has it.  Resolving a permission does not reject when none
    of the host calls it makes outside a handler fails.  For the notification
    types that is the capability query when not asking and
    [Notification.requestPermission] when asking; for location the capability
    query and, when asking, the presence of [navigator.geolocation]; for
    audioRecording and camera the capability query and then the device
    enumeration when not asking, and when asking a media request that does not
    reject with [undefined] or [null] (any other failure of it is caught and
    becomes a status).  An unrecognized type never rejects, on any host.
    [getAsync] and [askAsync] do not reject when this holds of every type of
    the list.  A rejection of the capability query a resolution consults does
    reach the caller. *)
Theorem getPermissionAsync_not_rejected {PS : PermissionStatus} (h : Host) :
  (∀ permission shouldAsk,
     unguardedFailure h permission shouldAsk = false →
     rejected (getPermissionAsync h permission shouldAsk) = false)
  ∧ (∀ permission shouldAsk,
       permission ∉ recognized →
       rejected (getPermissionAsync h permission shouldAsk) = false)
  ∧ (∀ permissionTypes,
       (∀ t, t ∈ permissionTypes → unguardedFailure h t false = false) →
       rejected (getAsync h permissionTypes) = false)
  ∧ (∀ permissionTypes,
       (∀ t, t ∈ permissionTypes → unguardedFailure h t true = false) →
       rejected (askAsync h permissionTypes) = false)
  ∧ (∀ permission name shouldAsk,
       capabilityName permission = Some name →
       (name = "notifications" → shouldAsk = false) →
       queryFails h name = true →
       rejected (getPermissionAsync h permission shouldAsk) = true).
Proof.
  split; [exact (getPermissionAsync_guarded h)|].
  split.
  { intros permission shouldAsk Hnot. apply getPermissionAsync_guarded.
    unfold recognized in Hnot. repeat rewrite not_elem_of_cons in Hnot.
    destruct Hnot as (Hn & Hu & Hl & Ha & Hc & _).
    unfold unguardedFailure.
    by rewrite (eqb_of_neq _ _ Hn), (eqb_of_neq _ _ Hu), (eqb_of_neq _ _ Hl),
      (eqb_of_neq _ _ Ha), (eqb_of_neq _ _ Hc). }
  split.
  { intros permissionTypes Hall. unfold getAsync. apply forOf_not_rejected.
    intros t Ht. apply getPermissionAsync_guarded, Hall. by apply elem_of_newSet. }
  split.
  { intros permissionTypes Hall. unfold askAsync. apply forOf_not_rejected.
    intros t Ht. apply getPermissionAsync_guarded, Hall. by apply elem_of_newSet. }
  intros permission name shouldAsk Hname Hask Hfails.
  apply getPermissionWithQueryAsync_rejected in Hfails.
  assert (∀ A (k : option string → Promise A),
            rejected (getPermissionWithQueryAsync h name ≫= k) = true) as Hbind.
  { intros A k. destruct (getPermissionWithQueryAsync h name); done. }
  unfold capabilityName in Hname. unfold getPermissionAsync.
  destruct (_ || _).
  { injection Hname as <-. rewrite (Hask eq_refl). apply Hbind. }
  destruct (String.eqb permission "location"); [injection Hname as <-; apply Hbind|].
  destruct (String.eqb permission "audioRecording"); [injection Hname as <-; apply Hbind|].
  destruct (String.eqb permission "camera"); [injection Hname as <-; apply Hbind|].
  discriminate.
Qed.

Lemma getPermissionAsync_not_rejected_witness :
  rejected (getPermissionAsync (PS := expoPermissionStatus) hostQueryThrows "notifications" true)
  = false
  ∧ rejected (askAsync (PS := expoPermissionStatus) hostNoQuery ["audioRecording"; "location"])
    = false.
Proof.
  split.
  - apply (proj1 (getPermissionAsync_not_rejected (PS := expoPermissionStatus) hostQueryThrows)).
    reflexivity.
  - apply (proj1 (proj2 (proj2 (proj2
             (getPermissionAsync_not_rejected (PS := expoPermissionStatus) hostNoQuery))))).
    intros t Ht.
    apply elem_of_cons in Ht as [-> | Ht]; [reflexivity|].
    apply list_elem_of_singleton in Ht as ->. reflexivity.
Defined.

(** C1 as stated fails: a rejection of [permissions.query] is not caught.  On
    [hostQueryThrows] resolving the camera permission rejects with the error
    the query was rejected with. *)
Lemma getPermissionAsync_query_rejection_propagates :
  getPermissionAsync (PS := expoPermissionStatus) hostQueryThrows "camera" false
  = Rejected (Object (Error.Build "TypeError" "not a valid value for enumeration PermissionName" None))
  ∧ ¬ (∀ (h : Host) (permission : string) (shouldAsk : bool),
         rejected (getPermissionAsync (PS := expoPermissionStatus) h permission shouldAsk) = false).
Proof.
  split; [reflexivity|].
  intros Hnever. specialize (Hnever hostQueryThrows "camera" false). discriminate.
Qed.

(** ** The capability query *)

Lemma getPermissionWithQueryAsync_granted {PS : PermissionStatus} (h : Host) (name : string) :
  capabilityQuery h name = Some (Resolved "granted") →
  getPermissionWithQueryAsync h name = Resolved (Some GRANTED).
Proof.
  unfold capabilityQuery, hostQuery, getPermissionWithQueryAsync.
  destruct (_ ≫= Permissions.query) as [query|]; simpl; [|discriminate].
  intros [= ->]. reflexivity.
Qed.

Lemma getPermissionWithQueryAsync_unsupported {PS : PermissionStatus} (h : Host) (name : string) :
  hostQuery h = None →
  getPermissionWithQueryAsync h name = Resolved None.
Proof.
  unfold hostQuery, getPermissionWithQueryAsync. intros ->. reflexivity.
Qed.

Lemma truthy_Some (s : string) : s ≠ "" → truthy (Some s) = true.
Proof. intros Hs. simpl. by rewrite (eqb_of_neq _ _ Hs). Qed.

(** C2, as the code has it.  When the capability query reports ["granted"]
    under the name a permission type is queried by, the result has status
    [GRANTED]: for location, audioRecording and camera whatever [shouldAsk]
    is, and for the two notification types when [shouldAsk] is false (when it
    is true their case does not consult the query).  The enum members are
    taken non-empty and distinct, as those of a string enum are. *)
Theorem getPermissionAsync_query_granted {PS : PermissionStatus}
    (h : Host) (permission name : string) (shouldAsk : bool) :
  GRANTED ≠ "" →
  GRANTED ≠ UNDETERMINED →
  capabilityName permission = Some name →
  capabilityQuery h name = Some (Resolved "granted") →
  (name = "notifications" → shouldAsk = false) →
  getPermissionAsync h permission shouldAsk
  = Resolved {| status := GRANTED; expires := "never" |}.
Proof.
  intros Htruthy Hdistinct Hname Hgranted Hask.
  apply getPermissionWithQueryAsync_granted in Hgranted.
  pose proof (truthy_Some _ Htruthy) as Ht. simpl in Ht.
  pose proof (eqb_of_neq _ _ Hdistinct) as Hd.
  unfold capabilityName in Hname. unfold getPermissionAsync.
  destruct (_ || _).
  { injection Hname as <-. rewrite (Hask eq_refl).
    unfold notificationsCase. simpl negb. cbv iota.
    rewrite Hgranted. simpl. by rewrite Ht. }
  destruct (String.eqb permission "location").
  { injection Hname as <-. unfold locationCase.
    rewrite Hgranted. simpl. by rewrite Ht, Hd. }
  destruct (String.eqb permission "audioRecording").
  { injection Hname as <-. unfold audioRecordingCase.
    rewrite Hgranted. simpl. by rewrite Ht, Hd. }
  destruct (String.eqb permission "camera"); [|discriminate].
  injection Hname as <-. unfold cameraCase.
  rewrite Hgranted. simpl. by rewrite Ht, Hd.
Qed.

Lemma getPermissionAsync_query_granted_witness :
  getPermissionAsync (PS := expoPermissionStatus) (hostQueryOnly "granted") "location" true
  = Resolved {| status := "granted"; expires := "never" |}.
Proof.
  apply (getPermissionAsync_query_granted (PS := expoPermissionStatus)
           (hostQueryOnly "granted") "location" "geolocation" true).
  - discriminate.
  - discriminate.
  - reflexivity.
  - reflexivity.
  - discriminate.
Defined.

(** C2 as stated fails for the notification types when [shouldAsk] is true:
    the query reports ["granted"], the case skips it, finds no
    [Notification.requestPermission] and falls through to [UNDETERMINED]. *)
Lemma getPermissionAsync_notifications_ask_ignores_query :
  capabilityName "notifications" = Some "notifications"
  ∧ capabilityQuery (hostQueryOnly "granted") "notifications" = Some (Resolved "granted")
  ∧ getPermissionAsync (PS := expoPermissionStatus) (hostQueryOnly "granted") "notifications" true
    = Resolved {| status := "undetermined"; expires := "never" |}
  ∧ "undetermined" ≠ GRANTED (PermissionStatus := expoPermissionStatus).
Proof. repeat split. discriminate. Qed.

(** ** Device enumeration *)

Lemma labelled_device_exists (targetKind : string) (devices : list MediaDeviceInfo) :
  existsb (λ d, negb (String.eqb (label d) ""))
    (List.filter (λ d, String.eqb (kind d) targetKind) devices) = true
  ↔ ∃ d, d ∈ devices ∧ kind d = targetKind ∧ label d ≠ "".
Proof.
  rewrite existsb_exists. split.
  - intros (d & Hin & Hlabel). apply filter_In in Hin as [Hin Hkind].
    exists d. rewrite list_elem_of_In. split; [exact Hin|]. split.
    + by apply String.eqb_eq.
    + apply negb_true_iff in Hlabel. by apply String.eqb_neq.
  - intros (d & Hin & Hkind & Hlabel). exists d. split.
    + apply filter_In. split; [by apply list_elem_of_In | by apply String.eqb_eq].
    + apply negb_true_iff. by apply String.eqb_neq.
Qed.

(** C8. For audioRecording and camera, when [shouldAsk] is false and the host
    has no capability query, the result is decided by the enumerated devices
    (none when enumeration is unsupported): the status is [GRANTED] exactly
    when some device of the matching kind ([audioinput] for audioRecording,
    [videoinput] for camera) has a non-empty label, and [UNDETERMINED]
    otherwise. *)
Theorem getPermissionAsync_media_enumeration {PS : PermissionStatus}
    (h : Host) (permission targetKind : string)
    (devices : option (list MediaDeviceInfo)) :
  GRANTED ≠ UNDETERMINED →
  deviceKind permission = Some targetKind →
  hostQuery h = None →
  enumerateDevices h = Resolved devices →
  ∃ info,
    getPermissionAsync h permission false = Resolved info
    ∧ (status info = GRANTED
       ↔ ∃ d, d ∈ default [] devices ∧ kind d = targetKind ∧ label d ≠ "")
    ∧ (status info ≠ GRANTED → status info = UNDETERMINED).
Proof.
  intros Hdistinct Hkind Hquery Henum.
  assert (∀ name, getPermissionWithQueryAsync h name = Resolved None) as Hnull
    by (intros name; by apply getPermissionWithQueryAsync_unsupported).
  assert (∃ info,
    (maybeGranted ← getMediaMaybeGrantedAsync h targetKind;
     if maybeGranted : bool
     then Resolved {| status := GRANTED; expires := "never" |}
     else afterSwitch) = Resolved info
    ∧ (status info = GRANTED
       ↔ ∃ d, d ∈ default [] devices ∧ kind d = targetKind ∧ label d ≠ "")
    ∧ (status info ≠ GRANTED → status info = UNDETERMINED)) as Hfallback.
  { unfold getMediaMaybeGrantedAsync. rewrite Henum. simpl.
    destruct devices as [devices|]; simpl.
    - pose proof (labelled_device_exists targetKind devices) as Hex.
      destruct (existsb _ _); eexists; (split; [reflexivity|]); simpl.
      + split; [|done]. split; [intros _; by apply Hex | done].
      + split; [|done]. split; [intros Heq; by destruct Hdistinct|].
        intros Hd. apply Hex in Hd. discriminate.
    - eexists. split; [reflexivity|]. simpl. split; [|done].
      split; [intros Heq; by destruct Hdistinct|].
      intros (d & Hin & _). by apply elem_of_nil in Hin. }
  unfold deviceKind in Hkind. unfold getPermissionAsync.
  destruct (String.eqb permission "audioRecording") eqn:Haudio.
  - apply String.eqb_eq in Haudio as ->. injection Hkind as <-. simpl.
    unfold audioRecordingCase. rewrite Hnull. exact Hfallback.
  - destruct (String.eqb permission "camera") eqn:Hcamera; [|discriminate].
    apply String.eqb_eq in Hcamera as ->. injection Hkind as <-. simpl.
    unfold cameraCase. rewrite Hnull. exact Hfallback.
Qed.

Lemma getPermissionAsync_media_enumeration_witness :
  ∃ info,
    getPermissionAsync (PS := expoPermissionStatus) hostNoQuery "audioRecording" false
    = Resolved info
    ∧ (status info = "granted"
       ↔ ∃ d, d ∈ [builtInMicrophone; anonymousCamera]
              ∧ kind d = "audioinput" ∧ label d ≠ "")
    ∧ (status info ≠ "granted" → status info = "undetermined").
Proof.
  apply (getPermissionAsync_media_enumeration (PS := expoPermissionStatus)
           hostNoQuery "audioRecording" "audioinput"
           (Some [builtInMicrophone; anonymousCamera])).
  - discriminate.
  - reflexivity.
  - reflexivity.
  - reflexivity.
Defined.

(** ** Native notification permission *)

(** C9. For the notification types, on a host without a capability query whose
    [Notification] has [requestPermission], a native permission value that is
    absent or ["default"] gives status [UNDETERMINED]; the value is the one
    [requestPermission()] settles with when [shouldAsk] is true and
    [Notification.permission] when it is false. *)
Theorem getPermissionAsync_notifications_default {PS : PermissionStatus}
    (h : Host) (permission : string) (shouldAsk : bool)
    (native : Notification.t) (request : Promise (option string))
    (value : option string) :
  permission = "notifications" ∨ permission = "userFacingNotifications" →
  hostQuery h = None →
  Window.Notification (window h) = Some native →
  Notification.requestPermission native = Some request →
  (if shouldAsk then request = Resolved value else Notification.permission native = value) →
  value = None ∨ value = Some "default" →
  getPermissionAsync h permission shouldAsk
  = Resolved {| status := UNDETERMINED; expires := "never" |}.
Proof.
  intros Hperm Hquery Hnative Hrequest Hvalue Hdefault.
  assert (getPermissionAsync h permission shouldAsk = notificationsCase h shouldAsk) as ->
    by (destruct Hperm as [-> | ->]; reflexivity).
  assert (nativeNotification h shouldAsk
          = Resolved {| status := UNDETERMINED; expires := "never" |}) as Hresult.
  { unfold nativeNotification. rewrite Hnative. simpl. rewrite Hrequest.
    destruct shouldAsk; rewrite Hvalue; destruct Hdefault as [-> | ->]; reflexivity. }
  unfold notificationsCase.
  destruct shouldAsk; simpl negb; cbv iota; [exact Hresult|].
  rewrite (getPermissionWithQueryAsync_unsupported h _ Hquery). exact Hresult.
Qed.

Lemma getPermissionAsync_notifications_default_witness :
  getPermissionAsync (PS := expoPermissionStatus) hostNoQuery "userFacingNotifications" true
  = Resolved {| status := "undetermined"; expires := "never" |}.
Proof.
  apply (getPermissionAsync_notifications_default (PS := expoPermissionStatus)
           hostNoQuery "userFacingNotifications" true
           (Notification.Build (Some "default") (Some (Resolved (Some "default"))))
           (Resolved (Some "default")) (Some "default")).
  - right. reflexivity.
  - reflexivity.
  - reflexivity.
  - reflexivity.
  - reflexivity.
  - right. reflexivity.
Defined.

(** ** Batches *)

Lemma PermissionMap_eq (m1 m2 : PermissionMap) :
  (∀ k, own m1 !! k = own m2 !! k) → prototype m1 = prototype m2 → m1 = m2.
Proof.
  destruct m1 as [own1 proto1], m2 as [own2 proto2]. simpl.
  intros Hown ->. f_equal. by apply map_eq.
Qed.

Section Batch.
Context {PS : PermissionStatus} (h : Host) (shouldAsk : bool).

Lemma forOf_cons_Resolved permissionType rest results info :
  getPermissionAsync h permissionType shouldAsk = Resolved info →
  forOf h shouldAsk (permissionType :: rest) results
  = forOf h shouldAsk rest (assign results permissionType info).
Proof. intros Hinfo. cbn [forOf]. rewrite Hinfo. reflexivity. Qed.

Lemma forOf_cons_unresolved permissionType rest results m :
  resolution h shouldAsk permissionType = None →
  forOf h shouldAsk (permissionType :: rest) results ≠ Resolved m.
Proof.
  unfold resolution. cbn [forOf].
  destruct (getPermissionAsync h permissionType shouldAsk); [discriminate| |];
    intros _; discriminate.
Qed.

Lemma resolution_Resolved permissionType info :
  getPermissionAsync h permissionType shouldAsk = Resolved info →
  resolution h shouldAsk permissionType = Some info.
Proof. unfold resolution. by intros ->. Qed.

(** One assignment, seen from the own properties and from the prototype. *)
Lemma assign_own results permissionType rest info :
  resolution h shouldAsk permissionType = Some info →
  ∀ k, (if decide (k ∈ rest ∧ k ≠ "__proto__") then resolution h shouldAsk k
        else own (assign results permissionType info) !! k)
       = (if decide (k ∈ permissionType :: rest ∧ k ≠ "__proto__")
          then resolution h shouldAsk k
          else own results !! k).
Proof.
  intros Hinfo k. unfold assign.
  destruct (String.eqb permissionType "__proto__") eqn:Hproto; simpl.
  - apply String.eqb_eq in Hproto as ->.
    apply decide_ext. rewrite elem_of_cons. tauto.
  - apply String.eqb_neq in Hproto.
    destruct (decide (k = permissionType)) as [->|Hne].
    + rewrite lookup_insert_eq.
      rewrite (decide_True (P := _ ∈ _ :: _ ∧ _)) by (split; [apply list_elem_of_here | done]).
      rewrite Hinfo. by case_decide.
    + rewrite lookup_insert_ne by done.
      apply decide_ext. rewrite elem_of_cons. tauto.
Qed.

Lemma assign_prototype results permissionType rest info :
  resolution h shouldAsk permissionType = Some info →
  (if decide ("__proto__" ∈ rest) then resolution h shouldAsk "__proto__"
   else prototype (assign results permissionType info))
  = (if decide ("__proto__" ∈ permissionType :: rest)
     then resolution h shouldAsk "__proto__"
     else prototype results).
Proof.
  intros Hinfo. unfold assign.
  destruct (String.eqb permissionType "__proto__") eqn:Hproto; simpl.
  - apply String.eqb_eq in Hproto as ->.
    rewrite (decide_True (P := _ ∈ _ :: _)) by apply list_elem_of_here.
    rewrite Hinfo. by case_decide.
  - apply String.eqb_neq in Hproto.
    apply decide_ext. rewrite elem_of_cons.
    split; [by right|]. intros [Heq|Hin]; [by destruct Hproto | exact Hin].
Qed.

(** The loop is fulfilled exactly when every type it visits resolves, and then
    the object holds, under each visited type other than ["__proto__"], what
    that type resolved to, and as prototype what ["__proto__"] resolved to if
    it was visited. *)
Lemma forOf_Resolved (permissionTypes : list string) :
  ∀ results m,
    forOf h shouldAsk permissionTypes results = Resolved m
    ↔ (∀ t, t ∈ permissionTypes → is_Some (resolution h shouldAsk t))
      ∧ (∀ k, own m !! k = if decide (k ∈ permissionTypes ∧ k ≠ "__proto__")
                            then resolution h shouldAsk k else own results !! k)
      ∧ prototype m = (if decide ("__proto__" ∈ permissionTypes)
                       then resolution h shouldAsk "__proto__"
                       else prototype results).
Proof.
  induction permissionTypes as [|permissionType rest IH]; intros results m.
  - cbn [forOf]. split.
    + intros [= <-]. split; [by intros t ?%elem_of_nil|]. split.
      * intros k. case_decide as Hin; [|done].
        destruct Hin as [Hin _]. by apply elem_of_nil in Hin.
      * case_decide as Hin; [by apply elem_of_nil in Hin | done].
    + intros (_ & Hown & Hproto). f_equal. symmetry. apply PermissionMap_eq.
      * intros k. rewrite Hown. clear Hproto. case_decide as Hin; [|done].
        destruct Hin as [Hin _]. by apply elem_of_nil in Hin.
      * rewrite Hproto. clear Hown Hproto.
        case_decide as Hin; [by apply elem_of_nil in Hin | done].
  - destruct (getPermissionAsync h permissionType shouldAsk) as [info|e|] eqn:Hinfo.
    + rewrite (forOf_cons_Resolved _ _ _ _ Hinfo), IH.
      apply resolution_Resolved in Hinfo.
      pose proof (assign_own results permissionType rest info Hinfo) as Hown.
      pose proof (assign_prototype results permissionType rest info Hinfo) as Hproto.
      split; intros (Hall & Hm & Hp); (split; [|split]).
      * intros t [->|Ht]%elem_of_cons; [by rewrite Hinfo | by apply Hall].
      * intros k. by rewrite Hm, Hown.
      * by rewrite Hp, Hproto.
      * intros t Ht. apply Hall. by apply list_elem_of_further.
      * intros k. by rewrite Hm, Hown.
      * by rewrite Hp, Hproto.
    + assert (resolution h shouldAsk permissionType = None) as Hnone
        by (unfold resolution; by rewrite Hinfo).
      split; [by intros ?%forOf_cons_unresolved|]. intros [Hall _].
      specialize (Hall permissionType (list_elem_of_here _ _)).
      rewrite Hnone in Hall. by destruct Hall.
    + assert (resolution h shouldAsk permissionType = None) as Hnone
        by (unfold resolution; by rewrite Hinfo).
      split; [by intros ?%forOf_cons_unresolved|]. intros [Hall _].
      specialize (Hall permissionType (list_elem_of_here _ _)).
      rewrite Hnone in Hall. by destruct Hall.
Qed.

(** Two batches over lists with the same elements are fulfilled together and
    with the same object. *)
Lemma forOf_newSet_same_elements (l1 l2 : list string) (m : PermissionMap) :
  (∀ x, x ∈ l1 ↔ x ∈ l2) →
  forOf h shouldAsk (newSet l1) emptyObject = Resolved m →
  forOf h shouldAsk (newSet l2) emptyObject = Resolved m.
Proof.
  intros Hsame. rewrite !forOf_Resolved. intros (Hall & Hm & Hp).
  assert (∀ x, x ∈ newSet l1 ↔ x ∈ newSet l2) as Hsets.
  { intros x. rewrite !elem_of_newSet. apply Hsame. }
  split; [|split].
  - intros t Ht. apply Hall. by apply Hsets.
  - intros k. rewrite Hm. apply decide_ext. by rewrite Hsets.
  - rewrite Hp. apply decide_ext. apply Hsets.
Qed.

Lemma forOf_newSet_dom (l : list string) (m : PermissionMap) :
  forOf h shouldAsk (newSet l) emptyObject = Resolved m →
  dom (own m) = list_to_set l ∖ {["__proto__"]}.
Proof.
  rewrite forOf_Resolved. intros (Hall & Hm & _).
  apply set_eq. intros k.
  rewrite elem_of_dom, Hm, elem_of_difference, elem_of_list_to_set, elem_of_singleton.
  case_decide as Hin.
  - destruct Hin as [Hin Hne]. split; [intros _|intros _; by apply Hall].
    split; [by apply elem_of_newSet | exact Hne].
  - simpl. rewrite lookup_empty. split; [by intros [? ?]|].
    intros [Hl Hne]. destruct Hin. split; [by apply elem_of_newSet | exact Hne].
Qed.

End Batch.

(** C6, as the code has it.  [getAsync] and [askAsync] depend on the list of
    types only through the set of its elements: two lists with the same
    elements are fulfilled together and with the same [PermissionMap], so
    neither repetitions nor the order of the list show in it; in particular
    [[x, x]] gives what [[x]] gives; and the keys of the map are exactly the
    distinct requested types other than ["__proto__"], which, assigned on the
    plain object, becomes its prototype and not an entry. *)
Theorem getAsync_askAsync_set {PS : PermissionStatus} (h : Host) :
  (∀ l1 l2 m,
     (∀ x, x ∈ l1 ↔ x ∈ l2) →
     (getAsync h l1 = Resolved m ↔ getAsync h l2 = Resolved m)
     ∧ (askAsync h l1 = Resolved m ↔ askAsync h l2 = Resolved m))
  ∧ (∀ x, getAsync h [x; x] = getAsync h [x] ∧ askAsync h [x; x] = askAsync h [x])
  ∧ (∀ l m,
       getAsync h l = Resolved m ∨ askAsync h l = Resolved m →
       dom (own m) = list_to_set l ∖ {["__proto__"]}).
Proof.
  split; [|split].
  - intros l1 l2 m Hsame.
    assert (∀ x, x ∈ l2 ↔ x ∈ l1) as Hsame' by (intros x; by rewrite Hsame).
    unfold getAsync, askAsync.
    split; split; by apply forOf_newSet_same_elements.
  - intros x. unfold getAsync, askAsync. by rewrite newSet_twice.
  - intros l m [Hrun|Hrun]; by apply forOf_newSet_dom in Hrun.
Qed.

Lemma getAsync_askAsync_set_witness :
  ∃ m,
    askAsync (PS := expoPermissionStatus) hostNoQuery ["camera"; "location"; "camera"] = Resolved m
    ∧ askAsync (PS := expoPermissionStatus) hostNoQuery ["location"; "camera"] = Resolved m.
Proof.
  eexists. split; [reflexivity|].
  apply (proj2 (proj1 (getAsync_askAsync_set (PS := expoPermissionStatus) hostNoQuery)
                  ["camera"; "location"; "camera"] ["location"; "camera"] _
                  ltac:(intros x; rewrite !elem_of_cons; tauto))).
  reflexivity.
Defined.

(** C6 as stated fails at the key ["__proto__"]: the batch is fulfilled with an
    object that has no entry at all, though one distinct type was requested;
    the info went to the prototype. *)
Lemma getAsync_proto_has_no_entry :
  ∃ m,
    getAsync (PS := expoPermissionStatus) hostBare ["__proto__"] = Resolved m
    ∧ own m = ∅
    ∧ prototype m = Some {| status := "undetermined"; expires := "never" |}
    ∧ dom (own m) ≠ list_to_set ["__proto__"].
Proof.
  exists {| own := ∅; prototype := Some {| status := "undetermined"; expires := "never" |} |}.
  split; [reflexivity|]. split; [reflexivity|]. split; [reflexivity|].
  cbn [own]. rewrite dom_empty_L. intros Heq.
  assert ("__proto__" ∈ (∅ : gset string)) as Hin.
  { rewrite Heq. apply elem_of_list_to_set, list_elem_of_here. }
  by apply elem_of_empty in Hin.
Qed.

(** * Further properties of the resolver *)

(** ** Browsers without [getUserMedia] *)

(** X1. On a host that has [navigator] but none of the four entry points
    ([mediaDevices.getUserMedia], [getUserMedia], [webkitGetUserMedia],
    [mozGetUserMedia]) the media request fails with the error
    ["Permission unimplemented"] that [_getUserMedia] makes up, and asking for
    media access answers [DENIED], whatever the constraints. *)
Theorem askForMediaPermissionAsync_unimplemented {PS : PermissionStatus}
    (h : Host) (nav : Navigator.t) (options : MediaStreamConstraints) :
  navigator h = Some nav →
  Navigator.mediaDevices nav ≫= MediaDevices.getUserMedia = None →
  Navigator.getUserMedia nav = None →
  Navigator.webkitGetUserMedia nav = None →
  Navigator.mozGetUserMedia nav = None →
  _getUserMedia h options
  = Rejected (Object (Error.Build "NotAllowedError" "Permission unimplemented" (Some 0)))
  ∧ askForMediaPermissionAsync h options
    = Resolved {| status := DENIED; expires := "never" |}.
Proof.
  intros Hnav Hmodern Hstd Hwebkit Hmoz.
  assert (_getUserMedia h options
          = Rejected (Object (Error.Build "NotAllowedError" "Permission unimplemented" (Some 0))))
    as Hmedia.
  { unfold _getUserMedia. rewrite Hnav, Hmodern, Hstd, Hwebkit, Hmoz. reflexivity. }
  split; [exact Hmedia|].
  unfold askForMediaPermissionAsync. rewrite Hmedia. reflexivity.
Qed.

Lemma askForMediaPermissionAsync_unimplemented_witness :
  askForMediaPermissionAsync (PS := expoPermissionStatus) hostBare
    {| audio := true; video := false |}
  = Resolved {| status := "denied"; expires := "never" |}.
Proof.
  apply (askForMediaPermissionAsync_unimplemented (PS := expoPermissionStatus)
           hostBare (Navigator.Build None None None None None None)
           {| audio := true; video := false |});
    reflexivity.
Defined.

(** ** What the capability query can say *)

(** X2. [getPermissionWithQueryAsync] only ever answers [null] or a member of
    [PermissionStatus]; a state other than ["prompt"], ["granted"] and
    ["denied"] is answered with [null], like a missing query. *)
Theorem getPermissionWithQueryAsync_range {PS : PermissionStatus}
    (h : Host) (name : string) :
  (∀ s, getPermissionWithQueryAsync h name = Resolved (Some s) →
        s = UNDETERMINED ∨ s = GRANTED ∨ s = DENIED)
  ∧ (∀ state, capabilityQuery h name = Some (Resolved state) →
              state ≠ "prompt" → state ≠ "granted" → state ≠ "denied" →
              getPermissionWithQueryAsync h name = Resolved None).
Proof.
  unfold capabilityQuery, hostQuery, getPermissionWithQueryAsync.
  destruct (_ ≫= Permissions.query) as [query|]; simpl.
  - split.
    + intros s. destruct (query name) as [state| |]; simpl; [|discriminate..].
      repeat (destruct (String.eqb state _); [intros [= <-]; tauto|]).
      discriminate.
    + intros state [= ->] Hp Hg Hd. simpl.
      by rewrite (eqb_of_neq _ _ Hp), (eqb_of_neq _ _ Hg), (eqb_of_neq _ _ Hd).
  - split; [discriminate|]. intros state [=].
Qed.

Lemma getPermissionWithQueryAsync_range_witness :
  getPermissionWithQueryAsync (PS := expoPermissionStatus) (hostQueryOnly "ask") "camera"
  = Resolved None.
Proof.
  apply (proj2 (getPermissionWithQueryAsync_range (PS := expoPermissionStatus)
                  (hostQueryOnly "ask") "camera") "ask");
    [reflexivity | discriminate..].
Defined.

(** ** The statuses a caller can see *)

Lemma enumStatus_bind {PS : PermissionStatus} {A}
    (p : Promise A) (k : A → Promise PermissionInfo) :
  (∀ a, p = Resolved a → enumStatus (k a)) → enumStatus (p ≫= k).
Proof. intros Hk. destruct p as [a|e|]; simpl; [by apply Hk | exact I | exact I]. Qed.

Section Range.
Context {PS : PermissionStatus} (h : Host).

Lemma afterSwitch_enumStatus : enumStatus afterSwitch.
Proof. simpl. tauto. Qed.

Lemma askForMediaPermissionAsync_enumStatus options :
  enumStatus (askForMediaPermissionAsync h options).
Proof.
  unfold askForMediaPermissionAsync.
  destruct (_getUserMedia h options) as [stream|[|e]|]; simpl; [tauto|exact I| |exact I].
  destruct (String.eqb _ _); simpl; tauto.
Qed.

Lemma askForLocationPermissionAsync_enumStatus :
  enumStatus (askForLocationPermissionAsync h).
Proof.
  unfold askForLocationPermissionAsync.
  destruct (navigator h) as [nav|]; [|exact I].
  destruct (Navigator.geolocation nav) as [geo|]; [|exact I].
  destruct (Geolocation.getCurrentPosition geo) as [|e|]; simpl; [tauto| |exact I].
  destruct (_ =? _); simpl; tauto.
Qed.

Lemma queried_enumStatus name s :
  getPermissionWithQueryAsync h name = Resolved (Some s) →
  enumStatus (Resolved {| status := s; expires := "never" |}).
Proof.
  unfold getPermissionWithQueryAsync.
  destruct (_ ≫= Permissions.query) as [query|]; [|discriminate].
  destruct (query name) as [state| |]; simpl; [|discriminate..].
  repeat (destruct (String.eqb state _); [intros [= <-]; tauto|]).
  discriminate.
Qed.

Lemma locationCase_enumStatus shouldAsk : enumStatus (locationCase h shouldAsk).
Proof.
  unfold locationCase. apply enumStatus_bind. intros [s|] Hq.
  - apply queried_enumStatus in Hq.
    split_ifs; auto using askForLocationPermissionAsync_enumStatus, afterSwitch_enumStatus.
  - split_ifs; auto using askForLocationPermissionAsync_enumStatus, afterSwitch_enumStatus.
Qed.

Lemma mediaFallback_enumStatus targetKind :
  enumStatus
    (maybeGranted ← getMediaMaybeGrantedAsync h targetKind;
     if maybeGranted : bool
     then Resolved {| status := GRANTED; expires := "never" |}
     else afterSwitch).
Proof. apply enumStatus_bind. intros [|] _; simpl; tauto. Qed.

Lemma audioRecordingCase_enumStatus shouldAsk : enumStatus (audioRecordingCase h shouldAsk).
Proof.
  unfold audioRecordingCase, askForMicrophonePermissionAsync.
  apply enumStatus_bind. intros [s|] Hq; cbv zeta.
  - apply queried_enumStatus in Hq.
    destruct (truthy _); [destruct (_ && _)|destruct shouldAsk];
      auto using askForMediaPermissionAsync_enumStatus, mediaFallback_enumStatus.
  - destruct shouldAsk;
      auto using askForMediaPermissionAsync_enumStatus, mediaFallback_enumStatus.
Qed.

Lemma cameraCase_enumStatus shouldAsk : enumStatus (cameraCase h shouldAsk).
Proof.
  unfold cameraCase, askForCameraPermissionAsync.
  apply enumStatus_bind. intros [s|] Hq; cbv zeta.
  - apply queried_enumStatus in Hq.
    destruct (truthy _); [destruct (_ && _)|destruct shouldAsk];
      auto using askForMediaPermissionAsync_enumStatus, mediaFallback_enumStatus.
  - destruct shouldAsk;
      auto using askForMediaPermissionAsync_enumStatus, mediaFallback_enumStatus.
Qed.

End Range.

(** X3. For every permission type other than the two notification types
    (location, audioRecording, camera and every unrecognized type), in every
    host and for either value of [shouldAsk], the status of a fulfilled
    resolution is a member of [PermissionStatus]: [GRANTED], [DENIED] or
    [UNDETERMINED]. *)
Theorem getPermissionAsync_status_range {PS : PermissionStatus}
    (h : Host) (permission : string) (shouldAsk : bool) (info : PermissionInfo) :
  permission ≠ "notifications" →
  permission ≠ "userFacingNotifications" →
  getPermissionAsync h permission shouldAsk = Resolved info →
  status info = GRANTED ∨ status info = DENIED ∨ status info = UNDETERMINED.
Proof.
  intros Hn Hu Hinfo.
  assert (enumStatus (getPermissionAsync h permission shouldAsk)) as Hrange.
  { unfold getPermissionAsync.
    rewrite (eqb_of_neq _ _ Hn), (eqb_of_neq _ _ Hu). simpl orb. cbv iota.
    split_ifs;
      auto using locationCase_enumStatus, audioRecordingCase_enumStatus,
        cameraCase_enumStatus, afterSwitch_enumStatus. }
  by rewrite Hinfo in Hrange.
Qed.

Lemma getPermissionAsync_status_range_witness :
  ∃ info,
    getPermissionAsync (PS := expoPermissionStatus) hostNoQuery "camera" true = Resolved info
    ∧ (status info = "granted" ∨ status info = "denied" ∨ status info = "undetermined").
Proof.
  eexists. split; [reflexivity|].
  apply (getPermissionAsync_status_range (PS := expoPermissionStatus)
           hostNoQuery "camera" true);
    [discriminate | discriminate | reflexivity].
Defined.

(** ** Native notification permission, passed through *)

(** X4. For the notification types, when the native permission value is a
    non-empty string other than ["default"], the status of the result is that
    string as the browser gave it: [Notification.permission] when not asking
    (and the host has no capability query), what [requestPermission()]
    settles with when asking. *)
Theorem getPermissionAsync_notifications_native {PS : PermissionStatus}
    (h : Host) (permission : string) (shouldAsk : bool)
    (native : Notification.t) (request : Promise (option string))
    (value : string) :
  permission = "notifications" ∨ permission = "userFacingNotifications" →
  (shouldAsk = false → hostQuery h = None) →
  Window.Notification (window h) = Some native →
  Notification.requestPermission native = Some request →
  (if shouldAsk then request = Resolved (Some value)
   else Notification.permission native = Some value) →
  value ≠ "" →
  value ≠ "default" →
  getPermissionAsync h permission shouldAsk
  = Resolved {| status := value; expires := "never" |}.
Proof.
  intros Hperm Hquery Hnative Hrequest Hvalue Hempty Hdefault.
  assert (getPermissionAsync h permission shouldAsk = notificationsCase h shouldAsk) as ->
    by (destruct Hperm as [-> | ->]; reflexivity).
  assert (nativeNotification h shouldAsk
          = Resolved {| status := value; expires := "never" |}) as Hresult.
  { unfold nativeNotification. rewrite Hnative. simpl. rewrite Hrequest.
    destruct shouldAsk; rewrite Hvalue; simpl;
      by rewrite (eqb_of_neq _ _ Hempty), (eqb_of_neq _ _ Hdefault). }
  unfold notificationsCase.
  destruct shouldAsk; simpl negb; cbv iota; [exact Hresult|].
  rewrite (getPermissionWithQueryAsync_unsupported h _ (Hquery eq_refl)). exact Hresult.
Qed.

Lemma getPermissionAsync_notifications_native_witness :
  getPermissionAsync (PS := expoPermissionStatus) (hostNotified "denied") "notifications" false
  = Resolved {| status := "denied"; expires := "never" |}.
Proof.
  apply (getPermissionAsync_notifications_native (PS := expoPermissionStatus)
           (hostNotified "denied") "notifications" false
           (Notification.Build (Some "denied") (Some (Resolved (Some "denied"))))
           (Resolved (Some "denied")) "denied").
  - left. reflexivity.
  - reflexivity.
  - reflexivity.
  - reflexivity.
  - reflexivity.
  - discriminate.
  - discriminate.
Defined.

(** ** Passive resolution does not prompt *)

Section Passive.
Context {PS : PermissionStatus} (h1 h2 : Host).
Hypothesis same_query : hostQuery h1 = hostQuery h2.
Hypothesis same_devices : enumerateDevices h1 = enumerateDevices h2.
Hypothesis same_permission : nativePermission h1 = nativePermission h2.
Hypothesis same_request : canRequestNotification h1 = canRequestNotification h2.

Lemma getPermissionWithQueryAsync_same name :
  getPermissionWithQueryAsync h1 name = getPermissionWithQueryAsync h2 name.
Proof.
  unfold getPermissionWithQueryAsync. fold (hostQuery h1) (hostQuery h2).
  by rewrite same_query.
Qed.

Lemma getMediaMaybeGrantedAsync_same targetKind :
  getMediaMaybeGrantedAsync h1 targetKind = getMediaMaybeGrantedAsync h2 targetKind.
Proof. unfold getMediaMaybeGrantedAsync. by rewrite same_devices. Qed.

Lemma nativeNotification_same :
  nativeNotification h1 false = nativeNotification h2 false.
Proof.
  unfold nativeNotification. fold (nativePermission h1) (nativePermission h2).
  rewrite same_permission.
  pose proof same_request as Hsame. unfold canRequestNotification in Hsame.
  destruct (Window.Notification (window h1) ≫= Notification.requestPermission) as [r1|],
    (Window.Notification (window h2) ≫= Notification.requestPermission) as [r2|];
    try reflexivity; cbv in Hsame; discriminate Hsame.
Qed.

Lemma getPermissionAsync_passive_same permission :
  getPermissionAsync h1 permission false = getPermissionAsync h2 permission false.
Proof.
  unfold getPermissionAsync, notificationsCase, locationCase, audioRecordingCase, cameraCase.
  simpl negb. cbv iota zeta.
  rewrite !getPermissionWithQueryAsync_same, !getMediaMaybeGrantedAsync_same,
    nativeNotification_same.
  split_ifs; try reflexivity;
    (destruct (getPermissionWithQueryAsync h2 _) as [[s|]| |]; simpl; [|reflexivity..];
     rewrite ?andb_false_r; reflexivity).
Qed.

Lemma forOf_passive_same permissionTypes :
  ∀ results, forOf h1 false permissionTypes results = forOf h2 false permissionTypes results.
Proof.
  induction permissionTypes as [|permissionType rest IH]; intros results; [reflexivity|].
  cbn [forOf]. rewrite getPermissionAsync_passive_same.
  destruct (getPermissionAsync h2 permissionType false); simpl; [apply IH | done | done].
Qed.

End Passive.

(** X5. Resolving with [shouldAsk] false reads the host only through the
    capability query, the device enumeration, [Notification.permission] and
    the presence of [Notification.requestPermission]: two hosts that agree on
    these give the same result for every permission type and the same
    [getAsync] for every list, however [getUserMedia], the geolocation
    position request and [requestPermission()] behave.  So [getAsync] calls
    none of the prompting APIs. *)
Theorem getAsync_does_not_prompt {PS : PermissionStatus} (h1 h2 : Host) :
  hostQuery h1 = hostQuery h2 →
  enumerateDevices h1 = enumerateDevices h2 →
  nativePermission h1 = nativePermission h2 →
  canRequestNotification h1 = canRequestNotification h2 →
  (∀ permission,
     getPermissionAsync h1 permission false = getPermissionAsync h2 permission false)
  ∧ (∀ permissionTypes, getAsync h1 permissionTypes = getAsync h2 permissionTypes).
Proof.
  intros Hq Hd Hp Hr. split.
  - intros permission. by apply getPermissionAsync_passive_same.
  - intros permissionTypes. unfold getAsync. by apply forOf_passive_same.
Qed.

Lemma getAsync_does_not_prompt_witness :
  getAsync (PS := expoPermissionStatus) hostNoQuery ["camera"; "location"; "notifications"]
  = getAsync (PS := expoPermissionStatus) hostNoQueryAccepting ["camera"; "location"; "notifications"]
  ∧ askAsync (PS := expoPermissionStatus) hostNoQuery ["camera"]
    ≠ askAsync (PS := expoPermissionStatus) hostNoQueryAccepting ["camera"].
Proof.
  split.
  - apply (proj2 (getAsync_does_not_prompt (PS := expoPermissionStatus)
                    hostNoQuery hostNoQueryAccepting eq_refl eq_refl eq_refl eq_refl)).
  - intros Heq. vm_compute in Heq. discriminate Heq.
Defined.

(** ** Verdicts of the capability query *)

Lemma getPermissionWithQueryAsync_denied {PS : PermissionStatus} (h : Host) (name : string) :
  capabilityQuery h name = Some (Resolved "denied") →
  getPermissionWithQueryAsync h name = Resolved (Some DENIED).
Proof.
  unfold capabilityQuery, hostQuery, getPermissionWithQueryAsync.
  destruct (_ ≫= Permissions.query) as [query|]; simpl; [|discriminate].
  intros [= ->]. reflexivity.
Qed.

Lemma getPermissionWithQueryAsync_prompt {PS : PermissionStatus} (h : Host) (name : string) :
  capabilityQuery h name = Some (Resolved "prompt") →
  getPermissionWithQueryAsync h name = Resolved (Some UNDETERMINED).
Proof.
  unfold capabilityQuery, hostQuery, getPermissionWithQueryAsync.
  destruct (_ ≫= Permissions.query) as [query|]; simpl; [|discriminate].
  intros [= ->]. reflexivity.
Qed.

(** The query's answer when it gives no verdict: [null] or [UNDETERMINED]. *)
Lemma getPermissionWithQueryAsync_noVerdict {PS : PermissionStatus} (h : Host) (name : string) :
  noVerdict h name →
  getPermissionWithQueryAsync h name = Resolved None
  ∨ getPermissionWithQueryAsync h name = Resolved (Some UNDETERMINED).
Proof.
  intros [Hnone | (state & Hstate & Hg & Hd)].
  - left. by apply getPermissionWithQueryAsync_unsupported.
  - unfold capabilityQuery, hostQuery in Hstate. unfold getPermissionWithQueryAsync.
    destruct (_ ≫= Permissions.query) as [query|]; simpl in *; [|discriminate].
    injection Hstate as ->. simpl.
    rewrite (eqb_of_neq _ _ Hg), (eqb_of_neq _ _ Hd).
    destruct (String.eqb state "prompt"); [by right | by left].
Qed.

(** X6. When the capability query reports ["denied"] under the name a
    permission type is queried by, the result is [DENIED] and nothing is asked:
    for location, audioRecording and camera whatever [shouldAsk] is, for the
    notification types when [shouldAsk] is false.  The enum members are taken
    non-empty and distinct. *)
Theorem getPermissionAsync_query_denied {PS : PermissionStatus}
    (h : Host) (permission name : string) (shouldAsk : bool) :
  DENIED ≠ "" →
  DENIED ≠ UNDETERMINED →
  capabilityName permission = Some name →
  capabilityQuery h name = Some (Resolved "denied") →
  (name = "notifications" → shouldAsk = false) →
  getPermissionAsync h permission shouldAsk
  = Resolved {| status := DENIED; expires := "never" |}.
Proof.
  intros Htruthy Hdistinct Hname Hdenied Hask.
  apply getPermissionWithQueryAsync_denied in Hdenied.
  pose proof (truthy_Some _ Htruthy) as Ht. simpl in Ht.
  pose proof (eqb_of_neq _ _ Hdistinct) as Hd.
  unfold capabilityName in Hname. unfold getPermissionAsync.
  destruct (_ || _).
  { injection Hname as <-. rewrite (Hask eq_refl).
    unfold notificationsCase. simpl negb. cbv iota.
    rewrite Hdenied. simpl. by rewrite Ht. }
  destruct (String.eqb permission "location").
  { injection Hname as <-. unfold locationCase.
    rewrite Hdenied. simpl. by rewrite Ht, Hd. }
  destruct (String.eqb permission "audioRecording").
  { injection Hname as <-. unfold audioRecordingCase.
    rewrite Hdenied. simpl. by rewrite Ht, Hd. }
  destruct (String.eqb permission "camera"); [|discriminate].
  injection Hname as <-. unfold cameraCase.
  rewrite Hdenied. simpl. by rewrite Ht, Hd.
Qed.

Lemma getPermissionAsync_query_denied_witness :
  getPermissionAsync (PS := expoPermissionStatus) (hostQueryOnly "denied") "audioRecording" true
  = Resolved {| status := "denied"; expires := "never" |}.
Proof.
  apply (getPermissionAsync_query_denied (PS := expoPermissionStatus)
           (hostQueryOnly "denied") "audioRecording" "microphone" true).
  - discriminate.
  - discriminate.
  - reflexivity.
  - reflexivity.
  - discriminate.
Defined.

(** X7. When the capability query reports ["prompt"] and [shouldAsk] is
    false, the result is [UNDETERMINED] for every recognized permission type;
    for audioRecording and camera the enumerated devices are not consulted.
    [UNDETERMINED] is taken non-empty. *)
Theorem getPermissionAsync_query_prompt_passive {PS : PermissionStatus}
    (h : Host) (permission name : string) :
  UNDETERMINED ≠ "" →
  capabilityName permission = Some name →
  capabilityQuery h name = Some (Resolved "prompt") →
  getPermissionAsync h permission false
  = Resolved {| status := UNDETERMINED; expires := "never" |}.
Proof.
  intros Htruthy Hname Hprompt.
  apply getPermissionWithQueryAsync_prompt in Hprompt.
  pose proof (truthy_Some _ Htruthy) as Ht. simpl in Ht.
  unfold capabilityName in Hname. unfold getPermissionAsync.
  destruct (_ || _).
  { injection Hname as <-. unfold notificationsCase. simpl negb. cbv iota.
    rewrite Hprompt. simpl. by rewrite Ht. }
  destruct (String.eqb permission "location").
  { injection Hname as <-. unfold locationCase.
    rewrite Hprompt. simpl. by rewrite Ht, andb_false_r. }
  destruct (String.eqb permission "audioRecording").
  { injection Hname as <-. unfold audioRecordingCase.
    rewrite Hprompt. simpl. by rewrite Ht, andb_false_r. }
  destruct (String.eqb permission "camera"); [|discriminate].
  injection Hname as <-. unfold cameraCase.
  rewrite Hprompt. simpl. by rewrite Ht, andb_false_r.
Qed.

Lemma getPermissionAsync_query_prompt_passive_witness :
  getPermissionAsync (PS := expoPermissionStatus) (hostQueryOnly "prompt") "camera" false
  = Resolved {| status := "undetermined"; expires := "never" |}.
Proof.
  apply (getPermissionAsync_query_prompt_passive (PS := expoPermissionStatus)
           (hostQueryOnly "prompt") "camera" "camera").
  - discriminate.
  - reflexivity.
  - reflexivity.
Defined.

(** X8. When [shouldAsk] is true and the capability query gives no verdict
    (there is none, or it answers anything but ["granted"] and ["denied"]),
    the result of location, audioRecording and camera is that of the
    corresponding request: the position request, the microphone request, the
    camera request.  This holds whatever strings the enum members are. *)
Theorem getPermissionAsync_ask_requests {PS : PermissionStatus} (h : Host) :
  (noVerdict h "geolocation" →
     getPermissionAsync h "location" true = askForLocationPermissionAsync h)
  ∧ (noVerdict h "microphone" →
       getPermissionAsync h "audioRecording" true = askForMicrophonePermissionAsync h)
  ∧ (noVerdict h "camera" →
       getPermissionAsync h "camera" true = askForCameraPermissionAsync h).
Proof.
  repeat split; intros Hno; apply getPermissionWithQueryAsync_noVerdict in Hno;
    unfold getPermissionAsync; simpl String.eqb; simpl orb; cbv iota;
    unfold locationCase, audioRecordingCase, cameraCase;
    destruct Hno as [-> | ->]; simpl; try reflexivity;
    rewrite String.eqb_refl; simpl; by destruct (String.eqb UNDETERMINED "").
Qed.

Lemma getPermissionAsync_ask_requests_witness :
  getPermissionAsync (PS := expoPermissionStatus) (hostQueryOnly "prompt") "camera" true
  = askForCameraPermissionAsync (PS := expoPermissionStatus) (hostQueryOnly "prompt").
Proof.
  apply (proj2 (proj2 (getPermissionAsync_ask_requests (PS := expoPermissionStatus)
                         (hostQueryOnly "prompt")))).
  right. exists "prompt". split; [reflexivity|]. split; discriminate.
Defined.

(** ** What a batch holds, and when it is fulfilled *)

Lemma resolution_Some {PS : PermissionStatus} (h : Host) (shouldAsk : bool)
    (permissionType : string) (info : PermissionInfo) :
  resolution h shouldAsk permissionType = Some info
  ↔ getPermissionAsync h permissionType shouldAsk = Resolved info.
Proof.
  unfold resolution.
  destruct (getPermissionAsync h permissionType shouldAsk); split; congruence.
Qed.

Lemma foldl_setAdd_extends (iterable set : list string) :
  ∃ added, foldl setAdd set iterable = (set ++ added)%list.
Proof.
  revert set. induction iterable as [|value rest IH]; intros set; simpl.
  - exists []. by rewrite app_nil_r.
  - destruct (IH (setAdd set value)) as [added ->].
    unfold setAdd. case_decide as Hin; [by exists added|].
    exists (value :: added). by rewrite <- app_assoc.
Qed.

(** The set of a list in which [x] occurs starts with the set of what comes
    before the first occurrence, followed by [x]. *)
Lemma newSet_first_occurrence (l1 l2 : list string) (x : string) :
  x ∉ l1 →
  ∃ later, newSet (l1 ++ x :: l2)%list = (newSet l1 ++ x :: later)%list.
Proof.
  intros Hnot. unfold newSet. rewrite foldl_app. simpl.
  fold (newSet l1).
  assert (setAdd (newSet l1) x = (newSet l1 ++ [x])%list) as ->.
  { unfold setAdd. by rewrite decide_False by (by rewrite elem_of_newSet). }
  destruct (foldl_setAdd_extends l2 (newSet l1 ++ [x])%list) as [added ->].
  exists added. by rewrite <- app_assoc.
Qed.

Section BatchSteps.
Context {PS : PermissionStatus} (h : Host) (shouldAsk : bool).

Lemma forOf_app (first second : list string) :
  ∀ results,
    forOf h shouldAsk (first ++ second)%list results
    = forOf h shouldAsk first results ≫= forOf h shouldAsk second.
Proof.
  induction first as [|permissionType rest IH]; intros results; [reflexivity|].
  cbn [app forOf].
  destruct (getPermissionAsync h permissionType shouldAsk); simpl; [apply IH | done | done].
Qed.

Lemma forOf_fulfilled (permissionTypes : list string) :
  (∀ t, t ∈ permissionTypes → is_Some (resolution h shouldAsk t)) →
  ∀ results, ∃ m, forOf h shouldAsk permissionTypes results = Resolved m.
Proof.
  induction permissionTypes as [|permissionType rest IH]; intros Hall results.
  - by exists results.
  - destruct (Hall permissionType (list_elem_of_here _ _)) as [info Hinfo].
    apply resolution_Some in Hinfo.
    rewrite (forOf_cons_Resolved _ _ _ _ _ _ Hinfo).
    apply IH. intros t Ht. apply Hall. by apply list_elem_of_further.
Qed.

(** The loop stops at the first type that is not fulfilled and settles as that
    type did. *)
Lemma forOf_newSet_first_unresolved (l1 l2 : list string) (x : string) :
  (∀ t, t ∈ l1 → is_Some (resolution h shouldAsk t)) →
  resolution h shouldAsk x = None →
  forOf h shouldAsk (newSet (l1 ++ x :: l2)%list) emptyObject
  = (_ ← getPermissionAsync h x shouldAsk; Pending).
Proof.
  intros Hall Hx.
  assert (x ∉ l1) as Hnot.
  { intros Hin. apply Hall in Hin as [info Hinfo]. congruence. }
  destruct (newSet_first_occurrence l1 l2 x Hnot) as [later ->].
  rewrite forOf_app.
  destruct (forOf_fulfilled (newSet l1)
              (λ t Ht, Hall t (proj1 (elem_of_newSet l1 t) Ht)) emptyObject) as [m ->].
  simpl. unfold resolution in Hx.
  destruct (getPermissionAsync h x shouldAsk); [discriminate | done | done].
Qed.

End BatchSteps.

(** X9. In an object returned by [getAsync] (by [askAsync]) the entry under a
    key is exactly what resolving that key alone with [shouldAsk] false (true)
    is fulfilled with; only the requested types other than ["__proto__"] are
    keys; and the prototype is replaced exactly when ["__proto__"] was
    requested, by what that resolves to. *)
Theorem getAsync_askAsync_lookup {PS : PermissionStatus}
    (h : Host) (permissionTypes : list string) (m : PermissionMap) :
  (getAsync h permissionTypes = Resolved m →
   (∀ k info,
      own m !! k = Some info
      ↔ k ∈ permissionTypes ∧ k ≠ "__proto__"
        ∧ getPermissionAsync h k false = Resolved info)
   ∧ (∀ info,
        prototype m = Some info
        ↔ "__proto__" ∈ permissionTypes
          ∧ getPermissionAsync h "__proto__" false = Resolved info))
  ∧ (askAsync h permissionTypes = Resolved m →
     (∀ k info,
        own m !! k = Some info
        ↔ k ∈ permissionTypes ∧ k ≠ "__proto__"
          ∧ getPermissionAsync h k true = Resolved info)
     ∧ (∀ info,
          prototype m = Some info
          ↔ "__proto__" ∈ permissionTypes
            ∧ getPermissionAsync h "__proto__" true = Resolved info)).
Proof.
  assert (∀ shouldAsk,
    forOf h shouldAsk (newSet permissionTypes) emptyObject = Resolved m →
    (∀ k info,
       own m !! k = Some info
       ↔ k ∈ permissionTypes ∧ k ≠ "__proto__"
         ∧ getPermissionAsync h k shouldAsk = Resolved info)
    ∧ (∀ info,
         prototype m = Some info
         ↔ "__proto__" ∈ permissionTypes
           ∧ getPermissionAsync h "__proto__" shouldAsk = Resolved info)) as Hboth.
  { intros shouldAsk Hrun. apply forOf_Resolved in Hrun as (_ & Hown & Hproto). split.
    - intros k info. rewrite Hown. clear Hown Hproto.
      destruct (decide (k ∈ newSet permissionTypes ∧ k ≠ "__proto__")) as [[Hin Hne]|Hnot].
      + apply (proj1 (elem_of_newSet _ _)) in Hin. split.
        * intros Hr. apply resolution_Some in Hr. by repeat split.
        * intros (_ & _ & Hr). by apply resolution_Some.
      + simpl. rewrite lookup_empty. split; [discriminate|].
        intros (Hl & Hne & _). destruct Hnot. split; [by apply elem_of_newSet | exact Hne].
    - intros info. rewrite Hproto. clear Hown Hproto.
      destruct (decide ("__proto__" ∈ newSet permissionTypes)) as [Hin|Hnot].
      + apply (proj1 (elem_of_newSet _ _)) in Hin. split.
        * intros Hr. apply resolution_Some in Hr. by split.
        * intros [_ Hr]. by apply resolution_Some.
      + simpl. split; [discriminate|].
        intros [Hl _]. destruct Hnot. by apply elem_of_newSet. }
  split; apply Hboth.
Qed.

Lemma getAsync_askAsync_lookup_witness :
  ∃ m,
    askAsync (PS := expoPermissionStatus) hostNoQuery ["camera"; "__proto__"] = Resolved m
    ∧ own m !! "camera" = Some {| status := "denied"; expires := "never" |}
    ∧ own m !! "__proto__" = None.
Proof.
  eexists. split; [reflexivity|]. split.
  - apply (proj1 (proj2 (getAsync_askAsync_lookup (PS := expoPermissionStatus)
                    hostNoQuery ["camera"; "__proto__"] _) eq_refl)).
    split; [apply list_elem_of_here|]. split; [discriminate | reflexivity].
  - reflexivity.
Defined.

(** X10. A batch is all or nothing: [getAsync] (and [askAsync]) is fulfilled
    exactly when every requested type resolves to a [PermissionInfo]; there is
    no partial map. *)
Theorem getAsync_askAsync_fulfilled_iff {PS : PermissionStatus}
    (h : Host) (permissionTypes : list string) :
  ((∃ m, getAsync h permissionTypes = Resolved m)
   ↔ ∀ t, t ∈ permissionTypes → ∃ info, getPermissionAsync h t false = Resolved info)
  ∧ ((∃ m, askAsync h permissionTypes = Resolved m)
     ↔ ∀ t, t ∈ permissionTypes → ∃ info, getPermissionAsync h t true = Resolved info).
Proof.
  unfold getAsync, askAsync. split; split.
  - intros [m Hrun] t Ht. apply forOf_Resolved in Hrun as [Hall _].
    destruct (Hall t (proj2 (elem_of_newSet _ t) Ht)) as [info Hinfo].
    exists info. by apply resolution_Some.
  - intros Hall. apply forOf_fulfilled. intros t Ht.
    destruct (Hall t (proj1 (elem_of_newSet _ t) Ht)) as [info Hinfo].
    exists info. by apply resolution_Some.
  - intros [m Hrun] t Ht. apply forOf_Resolved in Hrun as [Hall _].
    destruct (Hall t (proj2 (elem_of_newSet _ t) Ht)) as [info Hinfo].
    exists info. by apply resolution_Some.
  - intros Hall. apply forOf_fulfilled. intros t Ht.
    destruct (Hall t (proj1 (elem_of_newSet _ t) Ht)) as [info Hinfo].
    exists info. by apply resolution_Some.
Qed.

(** X11. A batch fails as its first failing type does: when every type before
    the first occurrence of [x] resolves and resolving [x] rejects with [e],
    [getAsync] (and [askAsync]) rejects with [e], whatever follows [x] in the
    list; when resolving [x] never settles, neither does the batch. *)
Theorem getAsync_askAsync_first_failure {PS : PermissionStatus}
    (h : Host) (l1 l2 : list string) (x : string) :
  ((∀ t, t ∈ l1 → ∃ info, getPermissionAsync h t false = Resolved info) →
   (∀ e, getPermissionAsync h x false = Rejected e →
         getAsync h (l1 ++ x :: l2)%list = Rejected e)
   ∧ (getPermissionAsync h x false = Pending →
      getAsync h (l1 ++ x :: l2)%list = Pending))
  ∧ ((∀ t, t ∈ l1 → ∃ info, getPermissionAsync h t true = Resolved info) →
     (∀ e, getPermissionAsync h x true = Rejected e →
           askAsync h (l1 ++ x :: l2)%list = Rejected e)
     ∧ (getPermissionAsync h x true = Pending →
        askAsync h (l1 ++ x :: l2)%list = Pending)).
Proof.
  assert (∀ shouldAsk,
    (∀ t, t ∈ l1 → ∃ info, getPermissionAsync h t shouldAsk = Resolved info) →
    (∀ e, getPermissionAsync h x shouldAsk = Rejected e →
          forOf h shouldAsk (newSet (l1 ++ x :: l2)%list) emptyObject = Rejected e)
    ∧ (getPermissionAsync h x shouldAsk = Pending →
       forOf h shouldAsk (newSet (l1 ++ x :: l2)%list) emptyObject = Pending)) as Hboth.
  { intros shouldAsk Hall.
    assert (∀ t, t ∈ l1 → is_Some (resolution h shouldAsk t)) as Hall'.
    { intros t Ht. destruct (Hall t Ht) as [info Hinfo].
      exists info. by apply resolution_Some. }
    split.
    - intros e He. rewrite (forOf_newSet_first_unresolved h shouldAsk l1 l2 x Hall').
      + by rewrite He.
      + unfold resolution. by rewrite He.
    - intros Hp. rewrite (forOf_newSet_first_unresolved h shouldAsk l1 l2 x Hall').
      + by rewrite Hp.
      + unfold resolution. by rewrite Hp. }
  split; apply Hboth.
Qed.

Lemma getAsync_askAsync_first_failure_witness :
  getAsync (PS := expoPermissionStatus) hostQueryThrows ["contacts"; "camera"; "location"]
  = Rejected (Object (Error.Build "TypeError" "not a valid value for enumeration PermissionName" None)).
Proof.
  assert (∀ t, t ∈ ["contacts"] →
            ∃ info, getPermissionAsync (PS := expoPermissionStatus) hostQueryThrows t false
                    = Resolved info) as Hbefore.
  { intros t Ht. apply list_elem_of_singleton in Ht as ->. eexists. reflexivity. }
  apply (proj1 (proj1 (getAsync_askAsync_first_failure (PS := expoPermissionStatus)
                         hostQueryThrows ["contacts"] ["location"] "camera") Hbefore)).
  reflexivity.
Defined.

Lemma getAsync_askAsync_fulfilled_iff_witness :
  ∃ m, getAsync (PS := expoPermissionStatus) (hostQueryOnly "prompt") ["camera"; "location"]
       = Resolved m.
Proof.
  apply (proj2 (proj1 (getAsync_askAsync_fulfilled_iff (PS := expoPermissionStatus)
                         (hostQueryOnly "prompt") ["camera"; "location"]))).
  intros t Ht.
  apply elem_of_cons in Ht as [-> | Ht]; [eexists; reflexivity|].
  apply list_elem_of_singleton in Ht as ->. eexists. reflexivity.
Defined.

(** ** Asking: what can and what cannot go wrong *)

(** X12. Asking for the microphone or the camera does not reject as long as
    the capability query does not fail for that name and the media request
    does not reject with [undefined] or [null]: any other failure of
    [getUserMedia] is caught, and device enumeration, geolocation and
    notifications are not touched.  A media request that rejects with
    [undefined] or [null] does make [askForMediaPermissionAsync] reject, the
    [catch] being unable to read its message. *)
Theorem getPermissionAsync_media_ask_not_rejected {PS : PermissionStatus} (h : Host) :
  (queryFails h "microphone" = false →
   rejectedNullish (_getUserMedia h {| audio := true; video := false |}) = false →
   rejected (getPermissionAsync h "audioRecording" true) = false)
  ∧ (queryFails h "camera" = false →
     rejectedNullish (_getUserMedia h {| audio := false; video := true |}) = false →
     rejected (getPermissionAsync h "camera" true) = false)
  ∧ (∀ options,
       _getUserMedia h options = Rejected Nullish →
       rejected (askForMediaPermissionAsync h options) = true).
Proof.
  split; [|split].
  - intros Hq Hmedia.
    apply (getPermissionWithQueryAsync_not_rejected h) in Hq.
    apply (askForMediaPermissionAsync_not_rejected h) in Hmedia.
    unfold getPermissionAsync. simpl String.eqb. simpl orb. cbv iota.
    unfold audioRecordingCase, askForMicrophonePermissionAsync.
    apply rejected_bind; [exact Hq|].
    intros [s|]; cbv zeta; split_ifs; done.
  - intros Hq Hmedia.
    apply (getPermissionWithQueryAsync_not_rejected h) in Hq.
    apply (askForMediaPermissionAsync_not_rejected h) in Hmedia.
    unfold getPermissionAsync. simpl String.eqb. simpl orb. cbv iota.
    unfold cameraCase, askForCameraPermissionAsync.
    apply rejected_bind; [exact Hq|].
    intros [s|]; cbv zeta; split_ifs; done.
  - intros options Hmedia. unfold askForMediaPermissionAsync. by rewrite Hmedia.
Qed.

Lemma getPermissionAsync_media_ask_not_rejected_witness :
  rejected (getPermissionAsync (PS := expoPermissionStatus) hostBare "camera" true) = false
  ∧ rejected (askForMediaPermissionAsync (PS := expoPermissionStatus) hostRejectsWithoutError
                {| audio := false; video := true |}) = true.
Proof.
  split.
  - apply (proj1 (proj2 (getPermissionAsync_media_ask_not_rejected
                           (PS := expoPermissionStatus) hostBare)));
      reflexivity.
  - apply (proj2 (proj2 (getPermissionAsync_media_ask_not_rejected
                           (PS := expoPermissionStatus) hostRejectsWithoutError))).
    reflexivity.
Defined.

(** X13. Asking for the location on a host that has [navigator] but no
    [navigator.geolocation], when the capability query gives no verdict,
    rejects: the position request is made without checking that geolocation
    is there.  So does [askAsync] for the location alone. *)
Theorem getPermissionAsync_location_without_geolocation {PS : PermissionStatus}
    (h : Host) (nav : Navigator.t) :
  navigator h = Some nav →
  Navigator.geolocation nav = None →
  noVerdict h "geolocation" →
  rejected (getPermissionAsync h "location" true) = true
  ∧ rejected (askAsync h ["location"]) = true.
Proof.
  intros Hnav Hgeo Hno.
  assert (askForLocationPermissionAsync h = Rejected (Object (TypeError "getCurrentPosition"))) as Hask.
  { unfold askForLocationPermissionAsync. by rewrite Hnav, Hgeo. }
  assert (getPermissionAsync h "location" true = Rejected (Object (TypeError "getCurrentPosition")))
    as Hone.
  { apply getPermissionWithQueryAsync_noVerdict in Hno.
    unfold getPermissionAsync. simpl String.eqb. simpl orb. cbv iota.
    unfold locationCase. rewrite Hask.
    destruct Hno as [-> | ->]; simpl; [reflexivity|].
    rewrite String.eqb_refl. simpl. by destruct (String.eqb UNDETERMINED ""). }
  split; [by rewrite Hone|].
  unfold askAsync.
  assert (newSet ["location"] = ["location"]) as -> by reflexivity.
  cbn [forOf]. by rewrite Hone.
Qed.

Lemma getPermissionAsync_location_without_geolocation_witness :
  rejected (askAsync (PS := expoPermissionStatus) hostBare ["location"]) = true.
Proof.
  apply (proj2 (getPermissionAsync_location_without_geolocation (PS := expoPermissionStatus)
                  hostBare (Navigator.Build None None None None None None)
                  eq_refl eq_refl (or_introl eq_refl))).
Defined.

(** X14. The position request has no timeout of its own: when the capability
    query gives no verdict and geolocation invokes neither callback, asking
    for the location never settles, and no batch that asks for the location is
    ever fulfilled. *)
Theorem getPermissionAsync_location_unanswered {PS : PermissionStatus}
    (h : Host) (geo : Geolocation.t) :
  navigator h ≫= Navigator.geolocation = Some geo →
  Geolocation.getCurrentPosition geo = NoCallback →
  noVerdict h "geolocation" →
  getPermissionAsync h "location" true = Pending
  ∧ (∀ permissionTypes m,
       "location" ∈ permissionTypes → askAsync h permissionTypes ≠ Resolved m).
Proof.
  intros Hgeo Hsilent Hno.
  assert (askForLocationPermissionAsync h = Pending) as Hask.
  { unfold askForLocationPermissionAsync.
    destruct (navigator h) as [nav|]; simpl in Hgeo; [|discriminate].
    by rewrite Hgeo, Hsilent. }
  assert (getPermissionAsync h "location" true = Pending) as Hone.
  { apply getPermissionWithQueryAsync_noVerdict in Hno.
    unfold getPermissionAsync. simpl String.eqb. simpl orb. cbv iota.
    unfold locationCase. rewrite Hask.
    destruct Hno as [-> | ->]; simpl; [reflexivity|].
    rewrite String.eqb_refl. simpl. by destruct (String.eqb UNDETERMINED ""). }
  split; [exact Hone|].
  intros permissionTypes m Hin Hrun. unfold askAsync in Hrun.
  apply forOf_Resolved in Hrun as [Hall _].
  destruct (Hall "location" (proj2 (elem_of_newSet _ _) Hin)) as [info Hinfo].
  apply resolution_Some in Hinfo. congruence.
Qed.

Lemma getPermissionAsync_location_unanswered_witness :
  getPermissionAsync (PS := expoPermissionStatus) hostSilentGeolocation "location" true
  = Pending.
Proof.
  apply (proj1 (getPermissionAsync_location_unanswered (PS := expoPermissionStatus)
                  hostSilentGeolocation (Geolocation.Build NoCallback)
                  eq_refl eq_refl (or_introl eq_refl))).
Defined.

(** ** Hosts without a capability query, passively *)

(** X15. On a host without a capability query, resolving with [shouldAsk]
    false never answers [DENIED] for a type other than the notification types:
    the status is [UNDETERMINED] for location and for unrecognized types, and
    [GRANTED] or [UNDETERMINED] for audioRecording and camera. *)
Theorem getPermissionAsync_passive_without_query {PS : PermissionStatus}
    (h : Host) (permission : string) (info : PermissionInfo) :
  hostQuery h = None →
  permission ≠ "notifications" →
  permission ≠ "userFacingNotifications" →
  getPermissionAsync h permission false = Resolved info →
  (status info = GRANTED ∨ status info = UNDETERMINED)
  ∧ (permission ≠ "audioRecording" → permission ≠ "camera" →
     status info = UNDETERMINED).
Proof.
  intros Hquery Hn Hu.
  assert (∀ name, getPermissionWithQueryAsync h name = Resolved None) as Hnull
    by (intros name; by apply getPermissionWithQueryAsync_unsupported).
  assert (∀ targetKind,
    (maybeGranted ← getMediaMaybeGrantedAsync h targetKind;
     if maybeGranted : bool
     then Resolved {| status := GRANTED; expires := "never" |}
     else afterSwitch) = Resolved info →
    status info = GRANTED ∨ status info = UNDETERMINED) as Hfallback.
  { intros targetKind.
    destruct (getMediaMaybeGrantedAsync h targetKind) as [[|]| |]; simpl;
      [intros [= <-]; by left | intros [= <-]; by right | discriminate..]. }
  unfold getPermissionAsync.
  rewrite (eqb_of_neq _ _ Hn), (eqb_of_neq _ _ Hu). simpl orb. cbv iota.
  destruct (String.eqb permission "location").
  { unfold locationCase. rewrite Hnull. simpl. intros [= <-]. by split; [right|]. }
  destruct (String.eqb permission "audioRecording") eqn:Haudio.
  { apply String.eqb_eq in Haudio as ->.
    unfold audioRecordingCase. rewrite Hnull. simpl. intros Hrun.
    split; [by apply Hfallback in Hrun | congruence]. }
  destruct (String.eqb permission "camera") eqn:Hcamera.
  { apply String.eqb_eq in Hcamera as ->.
    unfold cameraCase. rewrite Hnull. simpl. intros Hrun.
    split; [by apply Hfallback in Hrun | congruence]. }
  intros [= <-]. by split; [right|].
Qed.

Lemma getPermissionAsync_passive_without_query_witness :
  ∃ info,
    getPermissionAsync (PS := expoPermissionStatus) hostNoQueryAccepting "location" false
    = Resolved info
    ∧ status info = "undetermined".
Proof.
  eexists. split; [reflexivity|].
  apply (proj2 (getPermissionAsync_passive_without_query (PS := expoPermissionStatus)
                  hostNoQueryAccepting "location" _ eq_refl
                  ltac:(discriminate) ltac:(discriminate) eq_refl));
    discriminate.
Defined.

(** ** Notifications without [requestPermission] *)

(** X16. For the notification types, when [Notification] is missing or has no
    [requestPermission], [Notification.permission] is not read: asking, or
    resolving passively on a host without a capability query, answers
    [UNDETERMINED] whatever the native permission is. *)
Theorem getPermissionAsync_notifications_without_request {PS : PermissionStatus}
    (h : Host) (permission : string) (shouldAsk : bool) :
  permission = "notifications" ∨ permission = "userFacingNotifications" →
  canRequestNotification h = false →
  (shouldAsk = false → hostQuery h = None) →
  getPermissionAsync h permission shouldAsk
  = Resolved {| status := UNDETERMINED; expires := "never" |}.
Proof.
  intros Hperm Hrequest Hquery.
  assert (getPermissionAsync h permission shouldAsk = notificationsCase h shouldAsk) as ->
    by (destruct Hperm as [-> | ->]; reflexivity).
  assert (nativeNotification h shouldAsk
          = Resolved {| status := UNDETERMINED; expires := "never" |}) as Hresult.
  { unfold nativeNotification. unfold canRequestNotification in Hrequest.
    destruct (_ ≫= Notification.requestPermission) as [request|]; [|reflexivity].
    cbv in Hrequest. discriminate Hrequest. }
  unfold notificationsCase.
  destruct shouldAsk; simpl negb; cbv iota; [exact Hresult|].
  rewrite (getPermissionWithQueryAsync_unsupported h _ (Hquery eq_refl)). exact Hresult.
Qed.

Lemma getPermissionAsync_notifications_without_request_witness :
  getPermissionAsync (PS := expoPermissionStatus) (hostQueryOnly "granted") "notifications" true
  = Resolved {| status := "undetermined"; expires := "never" |}.
Proof.
  apply (getPermissionAsync_notifications_without_request (PS := expoPermissionStatus)
           (hostQueryOnly "granted") "notifications" true).
  - left. reflexivity.
  - reflexivity.
  - discriminate.
Defined.
